(** * Verification of the fact-check dashboard pipelines (final.py)

    A shallow embedding of the text normaliser [clean_text], the verifier
    [get_fact_check_result], the collector [scrape_politifact], the batch
    driver [verify_all] and the aggregation step of [show_results], with
    the properties stated about them. *)

From Stdlib Require Import ZArith NArith Lia Bool Sorted.
From Stdlib Require Ascii String Uint63.
From Stdlib Require Import Floats.PrimFloat.
From stdpp Require Import base option list gmap.

Set Default Proof Using "Type".

(** ** Python values and strings

    A Python [str] is a sequence of Unicode code points. *)

Definition char := N.
Definition str := list char.

(** String literals of the source are ASCII; [py] turns one into a [str]. *)
Import String.StringSyntax.
Delimit Scope string_scope with string.
Fixpoint py (s : String.string) : str :=
  match s with
  | String.EmptyString => []
  | String.String a t => Ascii.N_of_ascii a :: py t
  end.
Arguments py s%_string.

(** The values a cell of a table or an argument can hold. A float is kept
    as its binary64 bit pattern. *)
Inductive pyval :=
  | PyNone
  | PyBool (b : bool)
  | PyInt (z : Z)
  | PyFloat (bits : Z)
  | PyStr (s : str).

#[global] Instance pyval_eq_dec : EqDecision pyval.
Proof. solve_decision. Defined.

(** [isinstance(text, str)] *)
Definition is_str (v : pyval) : bool :=
  match v with PyStr _ => true | _ => false end.

(** Unicode whitespace, as tested by [str.isspace], [str.strip] and the
    [\s] class of [re] on [str] patterns. *)
Definition isspace (c : char) : bool :=
  ((9 <=? c) && (c <=? 13) || (28 <=? c) && (c <=? 32)
   || (c =? 133) || (c =? 160) || (c =? 5760)
   || (8192 <=? c) && (c <=? 8202)
   || (c =? 8232) || (c =? 8233) || (c =? 8239) || (c =? 8287)
   || (c =? 12288))%N.

Definition SPACE : char := 32%N.

(** ** Text cleaning (final.py, [clean_text]) *)

(** The character class of the first substitution, as code points: the two
    curly double quotes U+201C and U+201D, the straight double quote (34),
    the apostrophe (39), full stop (46), comma (44), exclamation mark (33)
    and question mark (63). *)
Definition quote_class : list char :=
  [8220; 8221; 34; 39; 46; 44; 33; 63]%N.

Definition in_class (cls : list char) (c : char) : bool :=
  existsb (N.eqb c) cls.

(** [re.sub] of a character class by the empty string: every member of
    the class is deleted. *)
Fixpoint sub_class_empty (cls : list char) (text : str) : str :=
  match text with
  | [] => []
  | c :: t =>
      if in_class cls c then sub_class_empty cls t
      else c :: sub_class_empty cls t
  end.

(** [re.sub] of the pattern [\s+] by one space: each maximal run of
    whitespace becomes one space. [in_run] tells that the previous
    character belonged to a run whose space was already written. *)
Fixpoint sub_spaces_from (in_run : bool) (text : str) : str :=
  match text with
  | [] => []
  | c :: t =>
      if isspace c then
        if in_run then sub_spaces_from true t
        else SPACE :: sub_spaces_from true t
      else c :: sub_spaces_from false t
  end.

Definition sub_spaces (text : str) : str := sub_spaces_from false text.

(** [str.strip()] with no argument. *)
Fixpoint lstrip (s : str) : str :=
  match s with
  | [] => []
  | c :: t => if isspace c then lstrip t else s
  end.

Fixpoint rstrip (s : str) : str :=
  match s with
  | [] => []
  | c :: t =>
      match rstrip t with
      | [] => if isspace c then [] else [c]
      | t' => c :: t'
      end
  end.

Definition strip (s : str) : str := rstrip (lstrip s).

(** The string before the final slice [text[:250]]. *)
Definition cleaned (s : str) : str :=
  strip (sub_spaces (sub_class_empty quote_class s)).

Definition clean_text (text : pyval) : str :=
  match text with
  | PyStr s => take 250 (cleaned s)
  | _ => []
  end.

(** *** Already normalised strings *)

Definition no_quotes (s : str) : bool :=
  forallb (fun c => negb (in_class quote_class c)) s.

Definition head_not_space (s : str) : bool :=
  match s with
  | [] => true
  | c :: _ => negb (isspace c)
  end.

Definition last_not_space (s : str) : bool :=
  match last s with
  | None => true
  | Some c => negb (isspace c)
  end.

(** Every whitespace character is a space, and stands alone. *)
Fixpoint single_spaced (s : str) : bool :=
  match s with
  | [] => true
  | c :: t =>
      (if isspace c then (c =? SPACE)%N && head_not_space t else true)
      && single_spaced t
  end.

Definition normalized (s : str) : bool :=
  no_quotes s && head_not_space s && last_not_space s && single_spaced s.

(** A string of 249 letters, a space and one more letter. *)
Definition long_statement : str := replicate 249 97%N ++ [SPACE; 98%N].

(** A letter, a tab and a letter. *)
Definition tabbed_statement : str := [97; 9; 98]%N.

(** ** Outcomes of fallible code *)

Inductive exn :=
  | AttributeError
  | KeyError.

Inductive outcome (A : Type) :=
  | Returned (a : A)
  | Raised (e : exn).
Arguments Returned {A} a.
Arguments Raised {A} e.

(** Value of an entry of a labelled sequence, by label: the first entry of
    that label. *)
Fixpoint series_get {A B : Type} `{EqDecision A} (v : A) (s : list (A * B))
  : option B :=
  match s with
  | [] => None
  | (k, x) :: rest => if decide (k = v) then Some x else series_get v rest
  end.

(** ** Fact-check lookup (final.py, [get_fact_check_result]) *)

(** [k in s] on strings. *)
Fixpoint startswith (s k : str) : bool :=
  match k, s with
  | [], _ => true
  | _ :: _, [] => false
  | a :: k', b :: s' => (a =? b)%N && startswith s' k'
  end.

Fixpoint str_in (k s : str) : bool :=
  startswith s k
  || match s with
     | [] => false
     | _ :: t => str_in k t
     end.

(** [any(k in text for k in keys)] *)
Definition any_in (keys : list str) (text : str) : bool :=
  existsb (fun k => str_in k text) keys.

Definition is_ascii (c : char) : bool := (c <? 128)%N.

Definition ascii_lower (c : char) : char :=
  if ((65 <=? c) && (c <=? 90))%N then (c + 32)%N else c.

(** The JSON body of the search API, as the code reads it: every key may
    be absent, and [dict.get] supplies the default. *)
Record publisher_json := { name : option str }.

Record review_json := {
  textualRating : option str;
  review_publisher : option publisher_json;
  review_url : option str
}.

Record claim_json := { claimReview : option (list review_json) }.

Record response_json := { claims : option (list claim_json) }.

(** What [requests.get] followed by [raise_for_status] comes to. The
    string of the two failures is [str(e)]. *)
Inductive http_outcome :=
  | TransportError (e : str)
  | HTTPError (e : str)
  | Response (body : response_json).

(** The dictionary every path returns. *)
Record result := {
  verdict : str;
  publisher : option str;
  rating : option str;
  url : option str
}.

#[global] Instance result_eq_dec : EqDecision result.
Proof. solve_decision. Defined.

Definition FALSE_KEYS : list str :=
  [py "false"; py "misleading"; py "pants"].

Definition TRUE_KEYS : list str :=
  [py "true"; py "accurate"; py "correct"; py "mostly true"].

Definition unverified : result :=
  {| verdict := py "Unverified"; publisher := None; rating := None;
     url := None |}.

Definition key_missing : result :=
  {| verdict := py "API Key Missing"; publisher := None; rating := None;
     url := None |}.

Definition api_error (e : str) : result :=
  {| verdict := py "API Error"; publisher := None; rating := Some e;
     url := None |}.

(** Truth value of an optional string: [None] and the empty string are
    false. *)
Definition truthy (o : option str) : bool :=
  match o with
  | Some (_ :: _) => true
  | _ => false
  end.

(** What the function takes from its environment. *)
Class verifier_env := {
  (** [os.getenv("GOOGLE_FACT_CHECK_API")], read once at start-up. *)
  FACT_API_KEY : option str;
  (** [str.lower] on strings that are not pure ASCII (the Unicode case
      tables are not part of the program). *)
  unicode_lower : str -> str;
  (** The network: the state of the outside world, and the GET request
      of the search endpoint with its [query] and [key] parameters. *)
  net : Type;
  requests_get : str -> str -> net -> http_outcome * net
}.

Section Verifier.

Context {E : verifier_env}.

Definition lower (s : str) : str :=
  if forallb is_ascii s then map ascii_lower s else unicode_lower s.

(** The inner loop, over the reviews of one claim; [None] when the loop
    ends without a [return]. *)
Fixpoint scan_reviews (reviews : list review_json) : option result :=
  match reviews with
  | [] => None
  | review :: rest =>
      let rating_text := lower (default [] (textualRating review)) in
      let publisher :=
        default (py "Unknown")
                (name (default {| name := None |}
                               (review_publisher review))) in
      let url := default [] (review_url review) in
      if any_in FALSE_KEYS rating_text then
        Some {| verdict := py "False"; publisher := Some publisher;
                rating := Some rating_text; url := Some url |}
      else if any_in TRUE_KEYS rating_text then
        Some {| verdict := py "True"; publisher := Some publisher;
                rating := Some rating_text; url := Some url |}
      else scan_reviews rest
  end.

(** The outer loop, over the claims. *)
Fixpoint scan_claims (data : list claim_json) : option result :=
  match data with
  | [] => None
  | claim :: rest =>
      match scan_reviews (default [] (claimReview claim)) with
      | Some r => Some r
      | None => scan_claims rest
      end
  end.

(** Lines 51 to 63: the scan of a decoded response, with the final
    [return] for the case that no review matched. *)
Definition classify (body : response_json) : result :=
  let data := default [] (claims body) in
  default unverified (scan_claims data).

(** The body of the function, below its caching decorator. *)
Definition fact_check (statement : pyval) (w : net) : result * net :=
  if negb (truthy FACT_API_KEY) then (key_missing, w)
  else
    let query := clean_text statement in
    if negb (truthy (Some query)) then (unverified, w)
    else
      match requests_get query (default [] FACT_API_KEY) w with
      | (TransportError e, w') => (api_error e, w')
      | (HTTPError e, w') => (api_error e, w')
      | (Response body, w') => (classify body, w')
      end.

(** [st.cache_data]: results are kept by argument. Entries are dropped
    after [CACHE_TTL] seconds; the clock is not modelled, so a run of
    the model stays within that window. *)
Definition cache := list (pyval * result).

Fixpoint cache_lookup (c : cache) (statement : pyval) : option result :=
  match c with
  | [] => None
  | (k, r) :: rest =>
      if decide (k = statement) then Some r else cache_lookup rest statement
  end.

Definition get_fact_check_result (statement : pyval) (s : cache * net)
  : result * (cache * net) :=
  match cache_lookup s.1 statement with
  | Some r => (r, s)
  | None =>
      let (r, w') := fact_check statement s.2 in
      (r, ((statement, r) :: s.1, w'))
  end.

(** Every entry of the cache was returned by the body of the function
    for that argument, in some state of the world. *)
Definition cache_ok (c : cache) : Prop :=
  Forall (fun kr => exists w : net, (fact_check kr.1 w).1 = kr.2) c.

(** *** The first-match policy, as it is described

    The reviews of a response in the order of the API, claim after
    claim; the first review whose lower-cased rating holds a keyword of
    either set decides, a false keyword taking precedence within that
    review. *)
Definition reviews_in_order (body : response_json) : list review_json :=
  mjoin ((fun claim => default [] (claimReview claim))
           <$> default [] (claims body)).

Definition rating_text_of (review : review_json) : str :=
  lower (default [] (textualRating review)).

Definition rated_false (review : review_json) : bool :=
  any_in FALSE_KEYS (rating_text_of review).

Definition rated_true (review : review_json) : bool :=
  any_in TRUE_KEYS (rating_text_of review).

Definition publisher_of (review : review_json) : str :=
  match review_publisher review with
  | Some {| name := Some n |} => n
  | _ => py "Unknown"
  end.

Definition decided (v : str) (review : review_json) : result :=
  {| verdict := v;
     publisher := Some (publisher_of review);
     rating := Some (rating_text_of review);
     url := Some (default [] (review_url review)) |}.


Definition first_match (reviews : list review_json) : result :=
  match List.find (fun r => rated_false r || rated_true r) reviews with
  | Some r =>
      if rated_false r then decided (py "False") r
      else decided (py "True") r
  | None => unverified
  end.

End Verifier.


(** A small environment for examples: a given key, ASCII text only, and
    a service that gives the same answer to every request. *)
Definition constant_service (key : option str) (answer : http_outcome)
  : verifier_env :=
  {| FACT_API_KEY := key;
     unicode_lower := fun s => s;
     net := unit;
     requests_get := fun _ _ w => (answer, w) |}.

(** ** Listing scraper (final.py, [scrape_politifact]) *)

(** One [li.o-listicle__item] card, as the selectors of the loop see it:
    the text of each selected element, or [None] where the selector finds
    nothing. *)
Record card := {
  desc_text : option str;    (* div.m-statement__desc, [.text] *)
  quote_text : option str;   (* div.m-statement__quote a, [get_text(strip=True)] *)
  name_text : option str;    (* a.m-statement__name, [get_text(strip=True)] *)
  footer_text : option str;  (* footer.m-statement__footer, [.text] *)
  img_alt : option str       (* the first img carrying an alt attribute *)
}.

(** A parsed page: its cards in document order and the Next anchor, if
    there is one, with its [href] attribute, if it has one. *)
Record page := {
  cards : list card;
  next_btn : option (option str)
}.

(** The [try] block of the loop: any exception of the request or of the
    parser takes the [except] branch. *)
Inductive fetch_outcome :=
  | FetchFailed
  | Fetched (p : page).

(** A row handed to [writer.writerow]. The date is the timestamp whose
    [YYYY-MM-DD] rendering is written. *)
Record row := {
  author : option str;
  statement : str;
  source : option str;
  date : Z;
  label : option str
}.

Definition base_url : str := py "https://www.politifact.com/factchecks/list/".

Definition PAGE_CAP : nat := 40.

(** [s.replace("-", " ")] *)
Definition replace_hyphens (s : str) : str :=
  map (fun c => if (c =? 45)%N then SPACE else c) s.

(** How one pass through the body of the card loop ends. *)
Inductive card_step :=
  | Continue (r : option row)
  | Break
  | Raise (e : exn).

(** How the card loop ends. *)
Inductive loop_exit :=
  | Exhausted
  | Broken
  | Faulted (e : exn).

(** The variables of the pagination loop. [requests] lists the URLs that
    were fetched, oldest first. *)
Record scraper := {
  next_page : option str;
  page_count : nat;
  buffer : list row;
  requests : list str
}.

(** What the function takes from its environment. *)
Class collector_env := {
  (** The listing site: the answer to the [n]-th request of the session,
      made to the given URL. *)
  session_get : nat -> str -> fetch_outcome;
  (** [re.search] of the pattern for the date after the words stated on,
      giving [group(1)]. *)
  search_stated_on : str -> option str;
  (** [pd.to_datetime]; [None] stands for its [ValueError]. *)
  to_datetime : str -> option Z;
  (** [re.search] of the pattern for the name after the word By in the
      footer, giving [group(1)]. *)
  search_by : str -> option str;
  (** [str.title] *)
  title : str -> str;
  urljoin : str -> str -> str;
  (** Whether [pd.read_csv] reads a field back as a missing value. *)
  na_value : str -> bool
}.

Section Collector.

Context {E : collector_env}.

Variables start_date end_date : Z.

(** Line 119: the author is cut out of the footer when there is a
    footer; [.group(1)] of a failed search is an [AttributeError]. *)
Definition footer_author (footer_tag : option str) : outcome (option str) :=
  match footer_tag with
  | Some text =>
      match search_by text with
      | Some group1 => Returned (Some (strip group1))
      | None => Raised AttributeError
      end
  | None => Returned None
  end.

(** The body of [for card in ...], lines 95 to 125. *)
Definition card_body (c : card) : card_step :=
  match desc_text c with
  | None => Continue None
  | Some text =>
      match search_stated_on text with
      | None => Continue None
      | Some group1 =>
          match to_datetime group1 with
          | None => Continue None
          | Some claim_date =>
              if (claim_date <? start_date)%Z then Break
              else if negb ((start_date <=? claim_date)%Z
                            && (claim_date <=? end_date)%Z)
              then Continue None
              else
                let statement := quote_text c in
                let source := name_text c in
                match footer_author (footer_text c) with
                | Raised e => Raise e
                | Returned author =>
                    let label :=
                      title ∘ replace_hyphens <$> img_alt c in
                    if truthy statement then
                      Continue (Some {| author := author;
                                        statement := default [] statement;
                                        source := source;
                                        date := claim_date;
                                        label := label |})
                    else Continue None
                end
          end
      end
  end.

(** The card loop of one page. On [Break] the loop has set [next_page]
    to [None] (line 109). *)
Fixpoint for_cards (cs : list card) (s : scraper) : loop_exit * scraper :=
  match cs with
  | [] => (Exhausted, s)
  | c :: rest =>
      match card_body c with
      | Continue None => for_cards rest s
      | Continue (Some r) =>
          for_cards rest
            {| next_page := next_page s; page_count := page_count s;
               buffer := buffer s ++ [r]; requests := requests s |}
      | Break =>
          (Broken,
           {| next_page := None; page_count := page_count s;
              buffer := buffer s; requests := requests s |})
      | Raise e => (Faulted e, s)
      end
  end.

(** Lines 127 and 128, after the card loop: [next_page] is assigned
    from the Next anchor of the page, whatever it held before. *)
Definition follow_next (p : page) (s : scraper) : outcome scraper :=
  match next_btn p with
  | None =>
      Returned {| next_page := None; page_count := page_count s;
                  buffer := buffer s; requests := requests s |}
  | Some None => Raised KeyError
  | Some (Some href) =>
      Returned {| next_page := Some (urljoin base_url href);
                  page_count := page_count s;
                  buffer := buffer s; requests := requests s |}
  end.

(** The loop condition, [next_page and page_count < 40]. *)
Definition running (s : scraper) : bool :=
  truthy (next_page s) && (page_count s <? PAGE_CAP)%nat.

(** Lines 84 to 87: the counter goes up and the request for [next_page]
    is sent. *)
Definition begin_page (s : scraper) : scraper :=
  {| next_page := next_page s;
     page_count := page_count s + 1;
     buffer := buffer s;
     requests := requests s ++ [default [] (next_page s)] |}.

(** The [while] loop. [None] is returned when [fuel] passes run out. *)
Fixpoint while_pages (fuel : nat) (s : scraper)
  : option (scraper * option exn) :=
  if running s then
    match fuel with
    | O => None
    | S fuel' =>
        let s1 := begin_page s in
        match session_get (length (requests s)) (default [] (next_page s)) with
        | FetchFailed => Some (s1, None)
        | Fetched soup =>
            match for_cards (cards soup) s1 with
            | (Faulted e, s2) => Some (s2, Some e)
            | (_, s2) =>
                match follow_next soup s2 with
                | Raised e => Some (s2, Some e)
                | Returned s3 => while_pages fuel' s3
                end
            end
        end
    end
  else Some (s, None).

Definition initial : scraper :=
  {| next_page := Some base_url; page_count := 0; buffer := [];
     requests := [] |}.

(** Reading the buffer back: an optional field comes back missing when
    it was [None] or holds a missing-value marker. *)
Definition read_field (o : option str) : option str :=
  match o with
  | Some s => if na_value s then None else Some s
  | None => None
  end.

(** [pd.read_csv(buffer).dropna(subset=["statement"])] *)
Definition read_csv_dropna (rows : list row) : list row :=
  (fun r => {| author := read_field (author r);
               statement := statement r;
               source := read_field (source r);
               date := date r;
               label := read_field (label r) |})
    <$> filter (fun r => na_value (statement r) = false) rows.

(** The whole function: the final loop variables and what the caller
    gets, a table or an exception. Writing the table to [DATA_FILE], the
    status line and the pause between pages are left out. *)
Definition scrape_politifact_run (fuel : nat)
  : option (scraper * outcome (list row)) :=
  match while_pages fuel initial with
  | None => None
  | Some (s, Some e) => Some (s, Raised e)
  | Some (s, None) => Some (s, Returned (read_csv_dropna (buffer s)))
  end.

Definition scrape_politifact : option (scraper * outcome (list row)) :=
  scrape_politifact_run PAGE_CAP.

End Collector.

(** The date of a card, when it has one that parses. *)
Definition claim_date_of `{E : collector_env} (c : card) : option Z :=
  match desc_text c with
  | Some text =>
      match search_stated_on text with
      | Some group1 => to_datetime group1
      | None => None
      end
  | None => None
  end.

(** Whether a row lies in the requested range. *)
Definition in_range (start_date end_date : Z) (r : row) : Prop :=
  (start_date <= date r <= end_date)%Z.

(** What every exit of the loop preserves: one request per counted
    page, the cap, and rows in the range. *)
Definition collector_inv (start_date end_date : Z) (s : scraper) : Prop :=
  length (requests s) = page_count s
  /\ page_count s <= PAGE_CAP
  /\ Forall (in_range start_date end_date) (buffer s).

(** A site whose pages raise none of the two exceptions that the loop
    does not catch: every footer holds a name after By, and every Next
    anchor has an href. *)
Definition card_marked `{E : collector_env} (c : card) : Prop :=
  forall text, footer_text c = Some text -> is_Some (search_by text).



(** *** A small listing site for examples

    Requests are answered from a list of pages, in order, whatever the
    URL; the date of a card is what follows the words stated on, looked
    up in a table of day numbers (days since 1970-01-01); the author is
    what follows the word By. Two parts are simpler than the libraries
    they stand for, and touch only the label and the missing-value
    markers of the examples: the label is the alt text with no change of
    case, and no field reads back as missing. *)
Definition day_table : list (str * Z) :=
  [ (py "January 10, 2024", 19732%Z);
    (py "January 5, 2024", 19727%Z);
    (py "December 20, 2023", 19711%Z) ].

Definition after_prefix (prefix text : str) : option str :=
  if startswith text prefix then Some (drop (length prefix) text) else None.

Definition listing (pages : list page) : collector_env :=
  {| session_get := fun n _ =>
       match pages !! n with
       | Some p => Fetched p
       | None => FetchFailed
       end;
     search_stated_on := after_prefix (py "stated on ");
     to_datetime := fun s => series_get s day_table;
     search_by := after_prefix (py "By ");
     title := fun s => s;
     urljoin := fun base href => base ++ href;
     na_value := fun _ => false |}.

Definition JAN_1_2024 : Z := 19723.
Definition JAN_31_2024 : Z := 19753.

Definition card_of (stated : str) (quote : option str) (source : option str)
  (footer : option str) : card :=
  {| desc_text := Some (py "stated on " ++ stated);
     quote_text := quote;
     name_text := source;
     footer_text := footer;
     img_alt := Some (py "false") |}.

(** A page whose only card is older than the range, with a Next link,
    followed by a last page with one card in the range. *)
Definition old_item_page : page :=
  {| cards := [card_of (py "December 20, 2023") (Some (py "An old claim"))
                       (Some (py "A. Speaker")) (Some (py "By Ann Writer"))];
     next_btn := Some (Some (py "?page=2")) |}.

Definition recent_item_page : page :=
  {| cards := [card_of (py "January 10, 2024") (Some (py "A recent claim"))
                       (Some (py "B. Speaker")) (Some (py "By Bob Writer"))];
     next_btn := None |}.

(** A page with a Next link and one without. *)
Definition first_of_two : page :=
  {| cards := [card_of (py "January 10, 2024") (Some (py "A recent claim"))
                       (Some (py "B. Speaker")) (Some (py "By Bob Writer"))];
     next_btn := Some (Some (py "?page=2")) |}.

Definition second_of_two : page :=
  {| cards := [card_of (py "January 5, 2024") (Some (py "Another claim"))
                       (Some (py "C. Speaker")) (Some (py "By Cy Writer"))];
     next_btn := None |}.

(** A card in the range that has a statement but no source element. *)
Definition card_without_source : card :=
  card_of (py "January 10, 2024") (Some (py "A recent claim")) None
          (Some (py "By Bob Writer")).

(** A card in the range whose footer does not name an author. *)
Definition card_without_author : card :=
  card_of (py "January 10, 2024") (Some (py "A recent claim"))
          (Some (py "B. Speaker")) (Some (py "January 11, 2024")).

Definition single_page (c : card) : page :=
  {| cards := [c]; next_btn := None |}.

(** ** Tables *)

(** A [DataFrame]: its number of rows and its columns, in order, each a
    label with one cell per row. *)
Record dataframe := {
  nrows : nat;
  columns : list (str * list pyval)
}.

Definition well_formed (df : dataframe) : Prop :=
  Forall (fun col => length col.2 = nrows df) (columns df).

(** [df[label]] *)
Definition getitem (label : str) (df : dataframe) : option (list pyval) :=
  series_get label (columns df).

Definition has_column (label : str) (df : dataframe) : bool :=
  bool_decide (label ∈ (columns df).*1).

(** [df[label] = values]: a column of that label is overwritten where it
    stands, a new label is added after the last column. *)
Definition setitem (label : str) (values : list pyval) (df : dataframe)
  : dataframe :=
  {| nrows := nrows df;
     columns :=
       if has_column label df then
         (fun col => if decide (col.1 = label) then (label, values) else col)
           <$> columns df
       else columns df ++ [(label, values)] |}.

(** Objects live in a store and are passed by reference. *)
Definition loc := nat.
Definition heap := gmap loc dataframe.

Definition cell (o : option str) : pyval :=
  match o with
  | Some s => PyStr s
  | None => PyNone
  end.

(** ** Batch verification (final.py, [verify_all]) *)

Section Driver.

Context {E : verifier_env}.

(** [row.statement] for each row of [df.itertuples(index=False)]; the
    attribute is looked up once per row, so not at all in a table
    without rows. *)
Definition row_statements (df : dataframe) : outcome (list pyval) :=
  match nrows df with
  | O => Returned []
  | S _ =>
      match getitem (py "statement") df with
      | Some col => Returned col
      | None => Raised AttributeError
      end
  end.

(** The loop of lines 143 to 146, one call per row. *)
Fixpoint verify_rows (statements : list pyval) (s : cache * net)
  : list result * (cache * net) :=
  match statements with
  | [] => ([], s)
  | statement :: rest =>
      let (res, s1) := get_fact_check_result statement s in
      let (results, s2) := verify_rows rest s1 in
      (res :: results, s2)
  end.

(** Lines 148 to 151. *)
Definition add_result_columns (results : list result) (df : dataframe)
  : dataframe :=
  setitem (py "fact_url") (cell ∘ url <$> results)
    (setitem (py "google_rating") (cell ∘ rating <$> results)
       (setitem (py "publisher") (cell ∘ publisher <$> results)
          (setitem (py "google_verdict") (PyStr ∘ verdict <$> results)
             df))).

(** [verify_all(df)], on a reference [df] into the store [h]. [None]
    only for a reference that points nowhere. *)
Definition verify_all (df : loc) (h : heap) (s : cache * net)
  : option (outcome loc * heap * (cache * net)) :=
  match h !! df with
  | None => None
  | Some table =>
      match row_statements table with
      | Raised e => Some (Raised e, h, s)
      | Returned statements =>
          let (results, s') := verify_rows statements s in
          Some (Returned df, <[df := add_result_columns results table]> h, s')
      end
  end.

End Driver.

(** The labels of the columns that the driver writes. *)
Definition RESULT_COLUMNS : list str :=
  [py "google_verdict"; py "publisher"; py "google_rating"; py "fact_url"].

(** A table of one row that already has a publisher column. *)
Definition verified_before : dataframe :=
  {| nrows := 1;
     columns := [ (py "statement", [PyStr (py "The moon is made of cheese")]);
                  (py "publisher", [PyStr (py "Snopes")]) ] |}.

(** ** Verdict summary (final.py, [show_results]) *)

Section ValueCounts.

Context {A : Type} `{EqDecision A}.

(** One more occurrence of [v] in the table of counts. *)
Fixpoint bump (v : A) (counts : list (A * nat)) : list (A * nat) :=
  match counts with
  | [] => [(v, 1)]
  | (k, n) :: rest =>
      if decide (k = v) then (k, S n) :: rest else (k, n) :: bump v rest
  end.

(** The distinct values with their counts, in order of first
    appearance. *)
Fixpoint tally (col : list A) (counts : list (A * nat)) : list (A * nat) :=
  match col with
  | [] => counts
  | v :: rest => tally rest (bump v counts)
  end.

(** Sorting by decreasing count, ties in order of appearance. *)
Fixpoint insert_desc (x : A * nat) (l : list (A * nat)) : list (A * nat) :=
  match l with
  | [] => [x]
  | y :: rest =>
      if (y.2 <=? x.2)%nat then x :: l else y :: insert_desc x rest
  end.

Definition sort_desc (l : list (A * nat)) : list (A * nat) :=
  foldr insert_desc [] l.

Definition value_counts (col : list A) : list (A * nat) :=
  sort_desc (tally col []).

End ValueCounts.

(** Conversion of a count to binary64. *)
Definition float_of_nat (n : nat) : float :=
  of_uint63 (Uint63.of_Z (Z.of_nat n)).

Definition two52 : float := 4503599627370496%float.

(** [rint] in the default rounding mode, to nearest with ties to even. *)
Definition rint (x : float) : float :=
  if (abs x <? two52)%float then
    let r := (abs x + two52 - two52)%float in
    if get_sign x then (- r)%float else r
  else x.

(** [round(1)] on a float column: scale by ten, round, scale back. *)
Definition round1 (x : float) : float := (rint (x * 10) / 10)%float.

(** [value_counts(normalize=True)]: the counts over their sum. *)
Definition value_counts_normalized {A : Type} `{EqDecision A} (col : list A)
  : list (A * float) :=
  let counts := value_counts col in
  let total := sum_list (counts.*2) in
  (fun kn => (kn.1, (float_of_nat kn.2 / float_of_nat total)%float))
    <$> counts.

(** The series [verdict_counts] of [show_results], computed from the
    cells of the [google_verdict] column. *)
Definition verdict_counts (google_verdict : list str) : list (str * float) :=
  (fun kp => (kp.1, round1 (kp.2 * 100)%float))
    <$> value_counts_normalized google_verdict.

Definition occurrences {A : Type} `{EqDecision A} (v : A) (col : list A) : nat :=
  length (filter (fun x => x = v) col).

(** The share of one verdict as the summary describes it: its count over
    the number of rows, times one hundred, to one decimal. *)
Definition percentage_share (google_verdict : list str) (v : str) : float :=
  round1 (float_of_nat (occurrences v google_verdict)
          / float_of_nat (length google_verdict) * 100)%float.

(** ** Further definitions *)

(** The verdicts that the lookup can return. *)
Definition VERDICTS : list str :=
  [py "True"; py "False"; py "Unverified"; py "API Error";
   py "API Key Missing"].

(** The same environment with another network function. *)
Definition with_requests_get (E : verifier_env)
  (get : str -> str -> @net E -> http_outcome * @net E) : verifier_env :=
  {| FACT_API_KEY := @FACT_API_KEY E;
     unicode_lower := @unicode_lower E;
     net := @net E;
     requests_get := get |}.

(** Every column of that label holds these values, and there is one. *)
Definition column_holds (label : str) (values : list pyval) (df : dataframe)
  : Prop :=
  has_column label df = true
  /\ forall col, col ∈ columns df -> col.1 = label -> col.2 = values.

(** A site where every page that is asked for comes, holds no footer
    without an author, and has a Next link to follow. *)
Definition endless_site `{E : collector_env} : Prop :=
  forall (n : nat) (u : str),
  exists (p : page) (href : str),
    session_get n u = Fetched p
    /\ Forall card_marked (cards p)
    /\ next_btn p = Some (Some href)
    /\ urljoin base_url href <> [].

(** The same page with a Next link for every request. *)
Definition endless_listing : collector_env :=
  {| session_get := fun _ _ => Fetched first_of_two;
     search_stated_on := after_prefix (py "stated on ");
     to_datetime := fun s => series_get s day_table;
     search_by := after_prefix (py "By ");
     title := fun s => s;
     urljoin := fun base href => base ++ href;
     na_value := fun _ => false |}.

(** A row that can be in the table: in the range, with a statement. *)
Definition row_valid (start_date end_date : Z) (r : row) : Prop :=
  in_range start_date end_date r /\ statement r <> [].

(** *** Tenths

    What rounding to one decimal means, in integers: the float is [k]
    tenths, and [k] tenths is a nearest tenth of the exact share
    [100 * count / total], that is, they differ by at most one
    twentieth. *)
Definition float_of_Z (k : Z) : float := of_uint63 (Uint63.of_Z k).

Definition is_tenths (x : float) (k : Z) : bool :=
  (x =? float_of_Z k / 10)%float.

Definition nearest_tenths (count total k : Z) : bool :=
  (Z.abs (2000 * count - 2 * k * total) <=? total)%Z.

(** The share computed for [count] rows out of [total] is a nearest
    tenth; the two candidates are the tenths below and above. *)
Definition share_ok (count total : Z) : bool :=
  let x := round1 (float_of_Z count / float_of_Z total * 100)%float in
  let q := (1000 * count / total)%Z in
  (is_tenths x q && nearest_tenths count total q)
  || (is_tenths x (q + 1) && nearest_tenths count total (q + 1)).

(** [share_ok] for the counts [count], [count + 1], ... *)
Fixpoint counts_ok (fuel : nat) (count total : Z) : bool :=
  match fuel with
  | O => true
  | S f => share_ok count total && counts_ok f (count + 1) total
  end.

(** [share_ok] for every count from 0 to [total], for the totals
    [total], [total + 1], ... *)
Fixpoint totals_ok (fuel : nat) (total : Z) : bool :=
  match fuel with
  | O => true
  | S f => counts_ok (Z.to_nat (total + 1)) 0 total && totals_ok f (total + 1)
  end.

(** The size of table up to which the shares are checked one by one. *)
Definition ROWS_CHECKED : nat := 1000.

(** Two columns whose shares need rounding: thirds, and sixteenths,
    where 6.25 and 93.75 lie half way between two tenths. *)
Definition thirds_column : list str := [py "True"; py "True"; py "False"].

Definition sixteenths_column : list str :=
  replicate 15 (py "True") ++ [py "False"].

(** * Properties *)

#[global] Arguments in_class : simpl never.
#[global] Arguments isspace : simpl never.

(** ** Text cleaning *)

Lemma space_not_quote : in_class quote_class SPACE = false.
Proof. reflexivity. Qed.

Lemma isspace_SPACE : isspace SPACE = true.
Proof. reflexivity. Qed.

Lemma sub_class_empty_id (s : str) :
  no_quotes s = true -> sub_class_empty quote_class s = s.
Proof.
  induction s as [|c t IH]; simpl; [done|].
  intros [Hc Ht]%andb_true_iff.
  apply negb_true_iff in Hc. rewrite Hc. by rewrite IH.
Qed.

Lemma no_quotes_sub_class_empty (s : str) :
  no_quotes (sub_class_empty quote_class s) = true.
Proof.
  induction s as [|c t IH]; [done|].
  cbn [sub_class_empty].
  destruct (in_class quote_class c) eqn:Hc; [exact IH|].
  cbn [no_quotes forallb]. fold (no_quotes (sub_class_empty quote_class t)).
  by rewrite Hc, IH.
Qed.

Lemma no_quotes_sub_spaces_from (b : bool) (s : str) :
  no_quotes s = true -> no_quotes (sub_spaces_from b s) = true.
Proof.
  revert b. induction s as [|c t IH]; intros b; simpl; [done|].
  intros [Hc Ht]%andb_true_iff.
  destruct (isspace c), b; simpl; rewrite ?Hc; simpl; auto.
Qed.

Lemma no_quotes_lstrip (s : str) :
  no_quotes s = true -> no_quotes (lstrip s) = true.
Proof.
  induction s as [|c t IH]; simpl; [done|].
  intros H. destruct (isspace c); [|done].
  apply andb_true_iff in H as [_ H]. auto.
Qed.

Lemma rstrip_cons (c : char) (t : str) :
  rstrip (c :: t) = [] \/ rstrip (c :: t) = c :: rstrip t.
Proof.
  simpl. destruct (rstrip t) eqn:E; [|by right].
  destruct (isspace c); [by left | by right].
Qed.

Lemma no_quotes_rstrip (s : str) :
  no_quotes s = true -> no_quotes (rstrip s) = true.
Proof.
  induction s as [|c t IH]; [done|].
  intros [Hc Ht]%andb_true_iff.
  destruct (rstrip_cons c t) as [-> | ->]; [done|].
  simpl. by rewrite Hc, IH.
Qed.

Lemma no_quotes_take (n : nat) (s : str) :
  no_quotes s = true -> no_quotes (take n s) = true.
Proof.
  revert n. induction s as [|c t IH]; intros [|n]; simpl; try done.
  intros [Hc Ht]%andb_true_iff. by rewrite Hc, IH.
Qed.

(** A run that is open when a non-space comes makes no difference. *)
Lemma sub_spaces_from_head (s : str) :
  head_not_space s = true -> sub_spaces_from true s = sub_spaces_from false s.
Proof.
  destruct s as [|c t]; simpl; [done|].
  intros Hc%negb_true_iff. by rewrite Hc.
Qed.

Lemma sub_spaces_id (s : str) :
  single_spaced s = true -> sub_spaces s = s.
Proof.
  unfold sub_spaces. induction s as [|c t IH]; simpl; [done|].
  intros [Hc Ht]%andb_true_iff.
  destruct (isspace c) eqn:Ec.
  - apply andb_true_iff in Hc as [Hc Hh]. apply N.eqb_eq in Hc. subst c.
    rewrite (sub_spaces_from_head _ Hh). by rewrite IH.
  - by rewrite IH.
Qed.

Lemma head_not_space_sub_spaces_true (s : str) :
  head_not_space (sub_spaces_from true s) = true.
Proof.
  induction s as [|c t IH]; simpl; [done|].
  destruct (isspace c) eqn:Ec; [done|]. simpl. by rewrite Ec.
Qed.

Lemma single_spaced_sub_spaces_from (b : bool) (s : str) :
  single_spaced (sub_spaces_from b s) = true.
Proof.
  revert b. induction s as [|c t IH]; intros b; simpl; [done|].
  destruct (isspace c) eqn:Ec.
  - destruct b; [done|]. simpl.
    by rewrite head_not_space_sub_spaces_true, IH.
  - simpl. by rewrite Ec, IH.
Qed.

Lemma single_spaced_lstrip (s : str) :
  single_spaced s = true -> single_spaced (lstrip s) = true.
Proof.
  induction s as [|c t IH]; simpl; [done|].
  intros H. destruct (isspace c) eqn:Ec.
  - apply andb_true_iff in H as [_ H]. auto.
  - simpl. by rewrite Ec.
Qed.

Lemma head_not_space_lstrip (s : str) : head_not_space (lstrip s) = true.
Proof.
  induction s as [|c t IH]; simpl; [done|].
  destruct (isspace c) eqn:Ec; [done|]. simpl. by rewrite Ec.
Qed.

Lemma lstrip_id (s : str) : head_not_space s = true -> lstrip s = s.
Proof.
  destruct s as [|c t]; simpl; [done|].
  intros Hc%negb_true_iff. by rewrite Hc.
Qed.

Lemma head_not_space_prefix (s t : str) :
  head_not_space (s ++ t) = true -> s <> [] -> head_not_space s = true.
Proof. by destruct s. Qed.

Lemma single_spaced_app_l (s t : str) :
  single_spaced (s ++ t) = true -> single_spaced s = true.
Proof.
  induction s as [|c u IH]; simpl; [done|].
  intros [Hc Hu]%andb_true_iff. rewrite (IH Hu), andb_true_r.
  destruct (isspace c); [|done].
  apply andb_true_iff in Hc as [-> Hh]. simpl.
  destruct u; [done | exact Hh].
Qed.

Lemma single_spaced_take (n : nat) (s : str) :
  single_spaced s = true -> single_spaced (take n s) = true.
Proof.
  intros H. rewrite <- (take_drop n s) in H.
  by apply single_spaced_app_l in H.
Qed.

(** [rstrip] cuts a suffix off. *)
Lemma rstrip_prefix (s : str) : exists u, s = rstrip s ++ u.
Proof.
  induction s as [|c t [u IH]]; [by exists []|].
  destruct (rstrip_cons c t) as [-> | ->].
  - by exists (c :: t).
  - exists u. simpl. by rewrite <- IH.
Qed.

Lemma single_spaced_rstrip (s : str) :
  single_spaced s = true -> single_spaced (rstrip s) = true.
Proof.
  intros H. destruct (rstrip_prefix s) as [u Hu].
  rewrite Hu in H. by apply single_spaced_app_l in H.
Qed.

Lemma head_not_space_rstrip (s : str) :
  head_not_space s = true -> head_not_space (rstrip s) = true.
Proof.
  destruct s as [|c t]; [done|].
  destruct (rstrip_cons c t) as [-> | ->]; done.
Qed.

Lemma last_not_space_cons (c d : char) (t : str) :
  last_not_space (c :: d :: t) = last_not_space (d :: t).
Proof. done. Qed.

Lemma last_not_space_rstrip (s : str) : last_not_space (rstrip s) = true.
Proof.
  induction s as [|c t IH]; simpl; [done|].
  destruct (rstrip t) as [|d u] eqn:E.
  - destruct (isspace c) eqn:Ec; [done|].
    unfold last_not_space. simpl. by rewrite Ec.
  - by rewrite last_not_space_cons.
Qed.

Lemma rstrip_id (s : str) : last_not_space s = true -> rstrip s = s.
Proof.
  induction s as [|c t IH]; [done|].
  destruct t as [|d u].
  - unfold last_not_space. simpl. intros Hc%negb_true_iff. by rewrite Hc.
  - rewrite last_not_space_cons. intros H.
    change (rstrip (c :: d :: u))
      with (match rstrip (d :: u) with
            | [] => if isspace c then [] else [c]
            | t' => c :: t'
            end).
    by rewrite (IH H).
Qed.

Lemma rstrip_snoc_space (s : str) (c : char) :
  isspace c = true -> rstrip (s ++ [c]) = rstrip s.
Proof.
  intros Hc. induction s as [|d t IH]; simpl.
  - by rewrite Hc.
  - by rewrite IH.
Qed.

Lemma single_spaced_snoc_space (s : str) (c : char) :
  single_spaced (s ++ [c]) = true -> isspace c = true ->
  last_not_space s = true.
Proof.
  intros H Hc. induction s as [|d t IH]; [done|].
  simpl in H. apply andb_true_iff in H as [Hd Ht].
  destruct t as [|e u].
  - unfold last_not_space. simpl. simpl in Hd.
    destruct (isspace d); [|done].
    apply andb_true_iff in Hd as [_ Hd]. by rewrite Hc in Hd.
  - rewrite last_not_space_cons. by apply IH.
Qed.

(** What comes out of the three rewriting steps is normalised. *)
Lemma normalized_cleaned (s : str) : normalized (cleaned s) = true.
Proof.
  unfold normalized, cleaned, strip, sub_spaces.
  rewrite no_quotes_rstrip, head_not_space_rstrip, last_not_space_rstrip,
    single_spaced_rstrip; auto using head_not_space_lstrip,
    single_spaced_lstrip, single_spaced_sub_spaces_from, no_quotes_lstrip,
    no_quotes_sub_spaces_from, no_quotes_sub_class_empty.
Qed.

Lemma cleaned_id (s : str) : normalized s = true -> cleaned s = s.
Proof.
  unfold normalized, cleaned, strip.
  intros [[[Hq Hh]%andb_true_iff Hl]%andb_true_iff Hs]%andb_true_iff.
  by rewrite sub_class_empty_id, sub_spaces_id, lstrip_id, rstrip_id.
Qed.

(** C5. [clean_text] is a total function from values to strings (none of
    its steps can raise, and the embedding has no failure case); it
    returns the empty string on every value that is not a string, and
    its result never has more than 250 characters. *)
Theorem clean_text_total_bounded (text : pyval) :
  (exists s : str, clean_text text = s)
  /\ (is_str text = false -> clean_text text = [])
  /\ length (clean_text text) <= 250.
Proof.
  split; [by eexists|]. split.
  - by destruct text.
  - destruct text; simpl; try lia.
    rewrite length_take. lia.
Qed.

Lemma clean_text_total_bounded_witness :
  is_str (PyInt 2024) = false /\ clean_text (PyInt 2024) = [].
Proof.
  split; [reflexivity|].
  apply (clean_text_total_bounded (PyInt 2024)). reflexivity.
Defined.

(** C7. A string of at most 250 characters that holds none of the
    deleted punctuation characters, neither starts nor ends with
    whitespace, and whose whitespace is made of single spaces only, is
    returned unchanged. *)
Theorem clean_text_normalized_fixpoint (s : str) :
  length s <= 250 ->
  no_quotes s = true ->
  head_not_space s = true ->
  last_not_space s = true ->
  single_spaced s = true ->
  clean_text (PyStr s) = s.
Proof.
  intros Hlen Hq Hh Hl Hs. simpl.
  rewrite cleaned_id.
  - by apply take_ge.
  - unfold normalized. by rewrite Hq, Hh, Hl, Hs.
Qed.

Lemma clean_text_normalized_fixpoint_witness :
  clean_text (PyStr (py "the sky is green")) = py "the sky is green".
Proof.
  apply clean_text_normalized_fixpoint.
  - vm_compute. lia.
  - reflexivity.
  - reflexivity.
  - reflexivity.
  - reflexivity.
Defined.

(** A whitespace character other than the space is rewritten, even
    when it stands alone: single spaces are the only whitespace that a
    normalised string can hold. *)
Lemma clean_text_tab :
  clean_text (PyStr tabbed_statement) = [97; 32; 98]%N
  /\ single_spaced tabbed_statement = false.
Proof. split; reflexivity. Qed.

(** Cleaning twice is cleaning once whenever nothing was cut off. *)
Lemma clean_text_idempotent_short (s : str) :
  length (cleaned s) <= 250 ->
  clean_text (PyStr (clean_text (PyStr s))) = clean_text (PyStr s).
Proof.
  intros Hlen. simpl. rewrite (take_ge (cleaned s)) by done.
  rewrite (cleaned_id (cleaned s)) by apply normalized_cleaned.
  by apply take_ge.
Qed.

(** The second pass over a result that was cut just after a space. *)
Lemma clean_text_twice_cut_at_space (s : str) :
  250 < length (cleaned s) ->
  cleaned s !! 249 = Some SPACE ->
  clean_text (PyStr s) = take 249 (cleaned s) ++ [SPACE]
  /\ clean_text (PyStr (clean_text (PyStr s))) = take 249 (cleaned s).
Proof.
  intros Hlen Hsp.
  pose proof (normalized_cleaned s) as Hn. unfold normalized in Hn.
  apply andb_true_iff in Hn as [[[Hq Hh]%andb_true_iff _]%andb_true_iff Hs].
  set (t := cleaned s) in *.
  assert (Hu : take 250 t = take 249 t ++ [SPACE]) by by apply take_S_r.
  split; [exact Hu|].
  change (take 250 (cleaned (take 250 t)) = take 249 t).
  assert (Hs' : single_spaced (take 249 t ++ [SPACE]) = true).
  { rewrite <- Hu. by apply single_spaced_take. }
  assert (Hc : cleaned (take 250 t) = take 249 t).
  { unfold cleaned, strip.
    rewrite sub_class_empty_id by by apply no_quotes_take.
    rewrite sub_spaces_id by by apply single_spaced_take.
    rewrite lstrip_id.
    - rewrite Hu, rstrip_snoc_space by done.
      apply rstrip_id. by apply (single_spaced_snoc_space _ SPACE).
    - destruct t; [simpl in Hlen; lia | done]. }
  rewrite Hc. apply take_ge. rewrite length_take. lia.
Qed.

(** C9. [clean_text] is not idempotent: the cut to 250 characters comes
    after the trimming, so whenever the cleaned text is longer than 250
    characters and has a space as its 250th character, the result ends
    in that space and a second pass returns a strictly shorter string;
    and there is such an input. *)
Theorem clean_text_not_idempotent :
  (exists s : str,
     clean_text (PyStr (clean_text (PyStr s))) <> clean_text (PyStr s))
  /\ (forall s : str,
        250 < length (cleaned s) ->
        cleaned s !! 249 = Some SPACE ->
        last (clean_text (PyStr s)) = Some SPACE
        /\ length (clean_text (PyStr (clean_text (PyStr s))))
           < length (clean_text (PyStr s))
        /\ clean_text (PyStr (clean_text (PyStr s))) <> clean_text (PyStr s)).
Proof.
  assert (Hgen : forall s : str,
        250 < length (cleaned s) ->
        cleaned s !! 249 = Some SPACE ->
        last (clean_text (PyStr s)) = Some SPACE
        /\ length (clean_text (PyStr (clean_text (PyStr s))))
           < length (clean_text (PyStr s))
        /\ clean_text (PyStr (clean_text (PyStr s))) <> clean_text (PyStr s)).
  { intros s Hlen Hsp.
    destruct (clean_text_twice_cut_at_space s Hlen Hsp) as [H1 H2].
    assert (Hl : length (clean_text (PyStr (clean_text (PyStr s))))
                 < length (clean_text (PyStr s))).
    { rewrite H2, H1, length_app. simpl. lia. }
    split; [by rewrite H1, last_snoc|]. split; [exact Hl|].
    intros Heq. rewrite Heq in Hl. lia. }
  split; [|exact Hgen].
  exists long_statement. apply Hgen.
  - vm_compute. lia.
  - reflexivity.
Qed.

Lemma clean_text_not_idempotent_witness :
  last (clean_text (PyStr long_statement)) = Some SPACE
  /\ length (clean_text (PyStr (clean_text (PyStr long_statement))))
     < length (clean_text (PyStr long_statement))
  /\ clean_text (PyStr (clean_text (PyStr long_statement)))
     <> clean_text (PyStr long_statement).
Proof.
  apply (proj2 clean_text_not_idempotent long_statement).
  - vm_compute. lia.
  - reflexivity.
Defined.

(** ** Fact-check lookup *)

Section VerifierFacts.

Context {E : verifier_env}.

(** One pass of the inner loop. *)
Lemma scan_reviews_cons (r : review_json) (rest : list review_json) :
  scan_reviews (r :: rest) =
    if rated_false r then Some (decided (py "False") r)
    else if rated_true r then Some (decided (py "True") r)
    else scan_reviews rest.
Proof.
  unfold rated_false, rated_true, decided, rating_text_of, publisher_of.
  cbn [scan_reviews].
  destruct r as [tr [[[n|]]|] u]; reflexivity.
Qed.

Lemma scan_reviews_app (a b : list review_json) :
  scan_reviews (a ++ b) =
    match scan_reviews a with
    | Some r => Some r
    | None => scan_reviews b
    end.
Proof.
  induction a as [|r a IH]; [done|].
  rewrite <- app_comm_cons, !scan_reviews_cons, IH.
  destruct (rated_false r); [done|]. by destruct (rated_true r).
Qed.

(** The two nested loops scan the reviews of all claims in order. *)
Lemma scan_claims_flat (data : list claim_json) :
  scan_claims data =
    scan_reviews
      (mjoin ((fun claim => default [] (claimReview claim)) <$> data)).
Proof.
  induction data as [|c data IH]; [done|].
  cbn [scan_claims fmap list_fmap mjoin list_join].
  rewrite scan_reviews_app, IH.
  by destruct (scan_reviews (default [] (claimReview c))).
Qed.

Lemma scan_reviews_first_match (reviews : list review_json) :
  default unverified (scan_reviews reviews) = first_match reviews.
Proof.
  unfold first_match.
  induction reviews as [|r rest IH]; [done|].
  rewrite scan_reviews_cons. cbn [List.find].
  destruct (rated_false r) eqn:Hf; cbn [orb].
  { by rewrite Hf. }
  destruct (rated_true r) eqn:Ht; [by rewrite Hf|].
  exact IH.
Qed.

Lemma classify_first_match (body : response_json) :
  classify body = first_match (reviews_in_order body).
Proof.
  unfold classify, reviews_in_order.
  by rewrite scan_claims_flat, scan_reviews_first_match.
Qed.



(** *** The fixed results *)

Lemma fact_check_key_missing (statement : pyval) (w : net) :
  truthy FACT_API_KEY = false -> fact_check statement w = (key_missing, w).
Proof. intros H. unfold fact_check. by rewrite H. Qed.

Lemma fact_check_empty_query (statement : pyval) (w : net) :
  truthy FACT_API_KEY = true -> clean_text statement = [] ->
  fact_check statement w = (unverified, w).
Proof. intros H Hq. unfold fact_check. by rewrite H, Hq. Qed.

Lemma fact_check_error (statement : pyval) (w w' : net) (e : str) :
  truthy FACT_API_KEY = true -> clean_text statement <> [] ->
  requests_get (clean_text statement) (default [] FACT_API_KEY) w
    = (TransportError e, w')
  \/ requests_get (clean_text statement) (default [] FACT_API_KEY) w
     = (HTTPError e, w') ->
  fact_check statement w = (api_error e, w').
Proof.
  intros H Hq Hget. unfold fact_check. rewrite H. cbn [negb].
  destruct (clean_text statement) as [|c q] eqn:Eq; [done|]. cbn [truthy negb].
  by destruct Hget as [-> | ->].
Qed.

(** *** The cache *)

Lemma cache_ok_nil : cache_ok [].
Proof. constructor. Qed.

Lemma cache_lookup_ok (c : cache) (statement : pyval) (r : result) :
  cache_ok c -> cache_lookup c statement = Some r ->
  exists w : net, (fact_check statement w).1 = r.
Proof.
  induction 1 as [|[k r'] c [w Hw] _ IH]; cbn [cache_lookup]; [done|].
  destruct (decide (k = statement)) as [<-|]; [|exact IH].
  intros [= <-]. by exists w.
Qed.

(** A call returns what the body returns in some state of the world,
    the present one on a miss, and keeps the cache sound. *)
Lemma get_fact_check_result_sound (statement : pyval) (c : cache) (w : net) :
  cache_ok c ->
  (exists w0 : net,
      (get_fact_check_result statement (c, w)).1 = (fact_check statement w0).1)
  /\ cache_ok (get_fact_check_result statement (c, w)).2.1.
Proof.
  intros Hc. unfold get_fact_check_result. cbn [fst snd].
  destruct (cache_lookup c statement) as [r|] eqn:El.
  - split; [|done]. destruct (cache_lookup_ok _ _ _ Hc El) as [w0 <-].
    by exists w0.
  - destruct (fact_check statement w) as [r w'] eqn:Ef. cbn [fst snd].
    split; [exists w; by rewrite Ef|].
    constructor; [|done]. exists w. cbn [fst snd]. by rewrite Ef.
Qed.

Lemma get_fact_check_result_miss (statement : pyval) (c : cache) (w : net) :
  cache_lookup c statement = None ->
  get_fact_check_result statement (c, w) =
    ((fact_check statement w).1,
     ((statement, (fact_check statement w).1) :: c, (fact_check statement w).2)).
Proof.
  intros El. unfold get_fact_check_result. cbn [fst snd]. rewrite El.
  by destruct (fact_check statement w).
Qed.

Lemma verify_rows_length (statements : list pyval) (s : cache * net) :
  length (verify_rows statements s).1 = length statements.
Proof.
  revert s. induction statements as [|st rest IH]; intros s; [done|].
  cbn [verify_rows].
  destruct (get_fact_check_result st s) as [res s1].
  specialize (IH s1). destruct (verify_rows rest s1) as [results s2].
  cbn [fst length] in *. by rewrite IH.
Qed.

(** C4. The degraded paths give fixed results and no exception: with
    no key every call returns the API Key Missing result with its
    other fields null; with a key and an empty cleaned query it returns
    Unverified with null fields; and when the request or its status
    check fails the call returns API Error with the description of the
    failure as rating and null publisher and url. A batch has one
    result per statement, whatever the calls met. *)
Theorem verifier_degraded_paths :
  (truthy FACT_API_KEY = false ->
   forall (statement : pyval) (c : cache) (w : net),
     cache_ok c ->
     (get_fact_check_result statement (c, w)).1
     = {| verdict := py "API Key Missing"; publisher := None;
          rating := None; url := None |})
  /\ (truthy FACT_API_KEY = true ->
      forall (statement : pyval) (c : cache) (w : net),
        cache_ok c ->
        clean_text statement = [] ->
        (get_fact_check_result statement (c, w)).1
        = {| verdict := py "Unverified"; publisher := None;
             rating := None; url := None |})
  /\ (truthy FACT_API_KEY = true ->
      forall (statement : pyval) (c : cache) (w w' : net) (e : str),
        cache_lookup c statement = None ->
        clean_text statement <> [] ->
        requests_get (clean_text statement) (default [] FACT_API_KEY) w
          = (TransportError e, w')
        \/ requests_get (clean_text statement) (default [] FACT_API_KEY) w
           = (HTTPError e, w') ->
        (get_fact_check_result statement (c, w)).1
        = {| verdict := py "API Error"; publisher := None;
             rating := Some e; url := None |})
  /\ (forall (statements : list pyval) (s : cache * net),
        length (verify_rows statements s).1 = length statements).
Proof.
  split; [|split; [|split]].
  - intros Hk statement c w Hc.
    destruct (get_fact_check_result_sound statement c w Hc) as [[w0 ->] _].
    by rewrite fact_check_key_missing.
  - intros Hk statement c w Hc Hq.
    destruct (get_fact_check_result_sound statement c w Hc) as [[w0 ->] _].
    by rewrite fact_check_empty_query.
  - intros Hk statement c w w' e El Hq Hget.
    rewrite get_fact_check_result_miss by done. cbn [fst].
    by rewrite (fact_check_error statement w w' e).
  - apply verify_rows_length.
Qed.

End VerifierFacts.


Lemma verifier_degraded_paths_witness :
  (@get_fact_check_result (constant_service None (HTTPError (py "503")))
     (PyStr (py "The moon is made of cheese.")) ([], tt)).1
  = {| verdict := py "API Key Missing"; publisher := None;
       rating := None; url := None |}
  /\ (@get_fact_check_result
        (constant_service (Some (py "key")) (HTTPError (py "503")))
        (PyStr (py "The moon is made of cheese.")) ([], tt)).1
     = {| verdict := py "API Error"; publisher := None;
          rating := Some (py "503"); url := None |}.
Proof.
  split.
  - apply (proj1 (@verifier_degraded_paths
                    (constant_service None (HTTPError (py "503"))))).
    + reflexivity.
    + constructor.
  - apply (proj1 (proj2 (proj2 (@verifier_degraded_paths
             (constant_service (Some (py "key")) (HTTPError (py "503")))))))
      with (w' := tt).
    + reflexivity.
    + reflexivity.
    + discriminate.
    + right. reflexivity.
Defined.

(** ** Listing scraper *)

Section CollectorFacts.

Context {E : collector_env}.
Variables start_date end_date : Z.

(** *** One card *)

(** A card without a usable date is passed over. *)
Lemma card_body_no_date (c : card) :
  desc_text c = None
  \/ (exists text, desc_text c = Some text /\ search_stated_on text = None)
  \/ (exists text group1, desc_text c = Some text
        /\ search_stated_on text = Some group1
        /\ to_datetime group1 = None) ->
  card_body start_date end_date c = Continue None.
Proof.
  unfold card_body.
  intros [-> | [(text & -> & ->) | (text & g & -> & -> & ->)]]; reflexivity.
Qed.

Lemma card_body_dated (c : card) (d : Z) :
  claim_date_of c = Some d ->
  card_body start_date end_date c =
    if (d <? start_date)%Z then Break
    else if negb ((start_date <=? d)%Z && (d <=? end_date)%Z)
    then Continue None
    else
      match footer_author (footer_text c) with
      | Raised e => Raise e
      | Returned a =>
          if truthy (quote_text c) then
            Continue (Some {| author := a;
                              statement := default [] (quote_text c);
                              source := name_text c;
                              date := d;
                              label := title ∘ replace_hyphens <$> img_alt c |})
          else Continue None
      end.
Proof.
  unfold claim_date_of, card_body.
  destruct (desc_text c) as [text|]; [|done].
  destruct (search_stated_on text) as [g|]; [|done].
  by intros ->.
Qed.

Lemma card_body_row (c : card) (r : row) :
  card_body start_date end_date c = Continue (Some r) ->
  in_range start_date end_date r.
Proof.
  unfold card_body, in_range.
  destruct (desc_text c) as [text|]; [|done].
  destruct (search_stated_on text) as [g|]; [|done].
  destruct (to_datetime g) as [d|]; [|done].
  destruct (d <? start_date)%Z; [done|].
  destruct (start_date <=? d)%Z eqn:H1; [|done].
  destruct (d <=? end_date)%Z eqn:H2; [|done]. cbn [andb negb].
  destruct (footer_author (footer_text c)); [|done].
  destruct (truthy (quote_text c)); [|done].
  intros [= <-]. cbn [date]. lia.
Qed.

Lemma card_body_marked (c : card) (e : exn) :
  card_marked c -> card_body start_date end_date c <> Raise e.
Proof.
  unfold card_marked, card_body, footer_author. intros Hm.
  destruct (desc_text c) as [text|]; [|done].
  destruct (search_stated_on text) as [g|]; [|done].
  destruct (to_datetime g) as [d|]; [|done].
  destruct (d <? start_date)%Z; [done|].
  destruct (negb _); [done|].
  destruct (footer_text c) as [footer|].
  - destruct (Hm footer eq_refl) as [a ->].
    by destruct (truthy (quote_text c)).
  - by destruct (truthy (quote_text c)).
Qed.

(** *** The card loop *)

(** The loop only appends rows, all of them in the range, and leaves the
    page counter and the list of requests alone. *)
Lemma for_cards_frame (cs : list card) (s : scraper) :
  requests (for_cards start_date end_date cs s).2 = requests s
  /\ page_count (for_cards start_date end_date cs s).2 = page_count s
  /\ exists new : list row,
       buffer (for_cards start_date end_date cs s).2 = buffer s ++ new
       /\ Forall (in_range start_date end_date) new.
Proof.
  revert s. induction cs as [|c rest IH]; intros s; cbn [for_cards].
  { repeat split. exists []. by rewrite app_nil_r. }
  destruct (card_body start_date end_date c) as [[r|]| |e] eqn:Hc.
  - destruct (IH {| next_page := next_page s; page_count := page_count s;
                    buffer := buffer s ++ [r]; requests := requests s |})
      as (Hr & Hp & new & Hb & Hnew).
    cbn [requests page_count buffer] in *.
    repeat split; [done..|].
    exists (r :: new). split.
    + by rewrite Hb, <- app_assoc.
    + constructor; [|done]. by apply (card_body_row c).
  - apply IH.
  - repeat split. exists []. by rewrite app_nil_r.
  - repeat split. exists []. by rewrite app_nil_r.
Qed.

(** An item older than the range ends the card loop at once: the cards
    after it are not looked at, and [next_page] is reset. *)
Lemma for_cards_break (c : card) (rest : list card) (s : scraper) :
  card_body start_date end_date c = Break ->
  for_cards start_date end_date (c :: rest) s =
    (Broken, {| next_page := None; page_count := page_count s;
                buffer := buffer s; requests := requests s |}).
Proof. intros H. cbn [for_cards]. by rewrite H. Qed.

Lemma for_cards_marked (cs : list card) (s : scraper) (e : exn) :
  Forall card_marked cs ->
  (for_cards start_date end_date cs s).1 <> Faulted e.
Proof.
  intros Hm. revert s. induction Hm as [|c rest Hc _ IH]; intros s.
  { done. }
  cbn [for_cards].
  destruct (card_body start_date end_date c) as [[r|]| |e'] eqn:Hb;
    [apply IH | apply IH | done |].
  by apply card_body_marked in Hb.
Qed.

(** *** The page loop *)

Lemma follow_next_frame (p : page) (s s' : scraper) :
  follow_next p s = Returned s' ->
  page_count s' = page_count s /\ buffer s' = buffer s
  /\ requests s' = requests s.
Proof.
  unfold follow_next.
  destruct (next_btn p) as [[href|]|]; [|done|]; by intros [= <-].
Qed.


(** The result of one pass of the loop body, when there is one. *)
Lemma while_pages_step (fuel : nat) (s : scraper) :
  running s = true ->
  while_pages start_date end_date (S fuel) s =
    match session_get (length (requests s)) (default [] (next_page s)) with
    | FetchFailed => Some (begin_page s, None)
    | Fetched soup =>
        match for_cards start_date end_date (cards soup) (begin_page s) with
        | (Faulted e, s2) => Some (s2, Some e)
        | (_, s2) =>
            match follow_next soup s2 with
            | Raised e => Some (s2, Some e)
            | Returned s3 => while_pages start_date end_date fuel s3
            end
        end
    end.
Proof. intros H. cbn [while_pages]. by rewrite H. Qed.

Lemma while_pages_stop (fuel : nat) (s : scraper) :
  running s = false -> while_pages start_date end_date fuel s = Some (s, None).
Proof. intros H. destruct fuel; cbn [while_pages]; by rewrite H. Qed.

Lemma running_lt (s : scraper) : running s = true -> page_count s < PAGE_CAP.
Proof.
  unfold running. intros [_ H]%andb_true_iff. by apply Nat.ltb_lt in H.
Qed.

Lemma begin_page_inv (s : scraper) :
  running s = true -> collector_inv start_date end_date s -> collector_inv start_date end_date (begin_page s).
Proof.
  intros Hr%running_lt (Hl & Hp & Hb). unfold collector_inv, begin_page.
  cbn [requests page_count buffer]. rewrite length_app. cbn [length].
  repeat split; [lia | lia | done].
Qed.

Lemma for_cards_inv (cs : list card) (s : scraper) :
  collector_inv start_date end_date s -> collector_inv start_date end_date (for_cards start_date end_date cs s).2.
Proof.
  intros (Hl & Hp & Hb).
  destruct (for_cards_frame cs s) as (Hr & Hc & new & Hbuf & Hnew).
  unfold collector_inv. rewrite Hr, Hc, Hbuf.
  repeat split; [done..|]. by apply Forall_app.
Qed.

Lemma while_pages_inv (fuel : nat) (s s' : scraper) (e : option exn) :
  while_pages start_date end_date fuel s = Some (s', e) ->
  collector_inv start_date end_date s -> collector_inv start_date end_date s'.
Proof.
  revert s. induction fuel as [|fuel IH]; intros s Hw Hinv.
  - cbn [while_pages] in Hw. destruct (running s); [done|]. by injection Hw as <- _.
  - destruct (running s) eqn:Hr.
    2:{ rewrite while_pages_stop in Hw by done. by injection Hw as <- _. }
    rewrite while_pages_step in Hw by done.
    pose proof (begin_page_inv s Hr Hinv) as H1.
    destruct (session_get _ _) as [|soup]; [by injection Hw as <- _|].
    pose proof (for_cards_inv (cards soup) _ H1) as H2.
    destruct (for_cards _ _ _ _) as [ex s2]. cbn [snd] in H2.
    assert (Hnext : match follow_next soup s2 with
                    | Raised e0 => Some (s2, Some e0)
                    | Returned s3 => while_pages start_date end_date fuel s3
                    end = Some (s', e) -> collector_inv start_date end_date s').
    { destruct (follow_next soup s2) as [s3|e0] eqn:Hf.
      - intros Hw'. apply (IH s3 Hw').
        destruct (follow_next_frame _ _ _ Hf) as (Hp & Hb & Hq).
        unfold collector_inv. by rewrite Hp, Hb, Hq.
      - by intros [= <- _]. }
    destruct ex; [by apply Hnext | by apply Hnext | by injection Hw as <- _].
Qed.

(** The loop ends: the counter grows with every pass and is capped. *)
Lemma while_pages_enough_fuel (fuel : nat) (s : scraper) :
  PAGE_CAP <= fuel + page_count s ->
  is_Some (while_pages start_date end_date fuel s).
Proof.
  revert s. induction fuel as [|fuel IH]; intros s Hf.
  - cbn [while_pages]. destruct (running s) eqn:Hr; [|done].
    apply running_lt in Hr. lia.
  - destruct (running s) eqn:Hr.
    2:{ by rewrite while_pages_stop. }
    rewrite while_pages_step by done.
    destruct (session_get _ _) as [|soup]; [done|].
    destruct (for_cards_frame (cards soup) (begin_page s)) as (_ & Hc & _).
    destruct (for_cards _ _ _ _) as [ex s2]. cbn [snd] in Hc.
    assert (Hnext : is_Some match follow_next soup s2 with
                    | Raised e0 => Some (s2, Some e0)
                    | Returned s3 => while_pages start_date end_date fuel s3
                    end).
    { destruct (follow_next soup s2) as [s3|e0] eqn:Hn; [|done].
      apply IH. destruct (follow_next_frame _ _ _ Hn) as (Hp & _).
      rewrite Hp, Hc. cbn [begin_page page_count]. lia. }
    by destruct ex.
Qed.

(** More fuel does not change a result. *)
Lemma while_pages_more_fuel (fuel fuel' : nat) (s : scraper)
  (r : scraper * option exn) :
  while_pages start_date end_date fuel s = Some r -> fuel <= fuel' ->
  while_pages start_date end_date fuel' s = Some r.
Proof.
  revert fuel' s. induction fuel as [|fuel IH]; intros fuel' s Hw Hle.
  - cbn [while_pages] in Hw. destruct (running s) eqn:Hr; [done|].
    by rewrite while_pages_stop.
  - destruct (running s) eqn:Hr.
    2:{ rewrite while_pages_stop in Hw |- * by done. done. }
    destruct fuel' as [|fuel']; [lia|].
    rewrite while_pages_step in Hw |- * by done.
    destruct (session_get _ _) as [|soup]; [done|].
    destruct (for_cards _ _ _ _) as [ex s2].
    destruct ex; [| |done];
      (destruct (follow_next soup s2) as [s3|e0]; [|done];
       apply IH; [done|lia]).
Qed.


Lemma initial_inv : collector_inv start_date end_date initial.
Proof. unfold collector_inv, initial, PAGE_CAP. cbn. repeat split; [lia|done]. Qed.

(** The function returns, and with the same result for any larger fuel. *)
Lemma scrape_politifact_returns :
  exists (s : scraper) (out : outcome (list row)),
    scrape_politifact start_date end_date = Some (s, out)
    /\ collector_inv start_date end_date s
    /\ forall fuel, PAGE_CAP <= fuel ->
         scrape_politifact_run start_date end_date fuel = Some (s, out).
Proof.
  unfold scrape_politifact, scrape_politifact_run.
  destruct (while_pages_enough_fuel PAGE_CAP initial) as [[s e] Hw].
  { lia. }
  pose proof (while_pages_inv _ _ _ _ Hw initial_inv) as Hinv.
  exists s, (match e with
             | Some e => Raised e
             | None => Returned (read_csv_dropna (buffer s))
             end).
  split; [|split; [done|]].
  - rewrite Hw. by destruct e.
  - intros fuel Hfuel.
    rewrite (while_pages_more_fuel _ _ _ _ Hw Hfuel). by destruct e.
Qed.

(** A page without a Next anchor is the last one that is fetched. *)
Lemma while_pages_last_page (fuel : nat) (s : scraper) (soup : page) :
  running s = true ->
  session_get (length (requests s)) (default [] (next_page s)) = Fetched soup ->
  next_btn soup = None ->
  exists (s' : scraper) (e : option exn),
    while_pages start_date end_date (S fuel) s = Some (s', e)
    /\ requests s' = requests s ++ [default [] (next_page s)]
    /\ page_count s' = page_count s + 1.
Proof.
  intros Hr Hget Hbtn. rewrite while_pages_step, Hget by done.
  destruct (for_cards_frame (cards soup) (begin_page s)) as (Hq & Hc & _).
  destruct (for_cards _ _ _ _) as [ex s2]. cbn [snd] in Hq, Hc.
  assert (Hnext : exists (s' : scraper) (e : option exn),
    match follow_next soup s2 with
    | Raised e0 => Some (s2, Some e0)
    | Returned s3 => while_pages start_date end_date fuel s3
    end = Some (s', e)
    /\ requests s' = requests s ++ [default [] (next_page s)]
    /\ page_count s' = page_count s + 1).
  { unfold follow_next. rewrite Hbtn.
    eexists _, None. split; [by apply while_pages_stop|]. by split. }
  destruct ex; [exact Hnext | exact Hnext |].
  by exists s2, (Some e).
Qed.

(** A page with a Next link, and no fault in its cards, leads to the
    page that the link names. *)
Lemma while_pages_next_page (fuel : nat) (s : scraper) (soup : page)
  (href : str) :
  running s = true ->
  session_get (length (requests s)) (default [] (next_page s)) = Fetched soup ->
  Forall card_marked (cards soup) ->
  next_btn soup = Some (Some href) ->
  exists rows : list row,
    while_pages start_date end_date (S fuel) s =
      while_pages start_date end_date fuel
        {| next_page := Some (urljoin base_url href);
           page_count := page_count s + 1;
           buffer := rows;
           requests := requests s ++ [default [] (next_page s)] |}.
Proof.
  intros Hr Hget Hm Hbtn. rewrite while_pages_step, Hget by done.
  destruct (for_cards_frame (cards soup) (begin_page s)) as (Hq & Hc & _).
  pose proof (fun e => for_cards_marked (cards soup) (begin_page s) e Hm)
    as Hfc.
  destruct (for_cards _ _ _ _) as [ex s2]. cbn [fst snd] in Hq, Hc, Hfc.
  exists (buffer s2). unfold follow_next. rewrite Hbtn, Hq, Hc.
  destruct ex as [| |e]; [done | done | by destruct (Hfc e)].
Qed.

(** C6. The pagination loop ends: the function returns a result for the
    fuel of 40 passes and the same for any more, having sent at most 40
    requests; a fetched page without a Next anchor is the last request;
    and on a site of two pages, the second one without a Next anchor,
    exactly two pages are fetched. *)
Theorem collector_terminates :
  (exists (s : scraper) (out : outcome (list row)),
      scrape_politifact start_date end_date = Some (s, out)
      /\ length (requests s) <= 40
      /\ forall fuel, 40 <= fuel ->
           scrape_politifact_run start_date end_date fuel = Some (s, out))
  /\ (forall (fuel : nat) (s : scraper) (soup : page),
        running s = true ->
        session_get (length (requests s)) (default [] (next_page s))
          = Fetched soup ->
        next_btn soup = None ->
        exists (s' : scraper) (e : option exn),
          while_pages start_date end_date (S fuel) s = Some (s', e)
          /\ requests s' = requests s ++ [default [] (next_page s)]
          /\ page_count s' = page_count s + 1)
  /\ (forall (p1 p2 : page) (href : str),
        session_get 0 base_url = Fetched p1 ->
        Forall card_marked (cards p1) ->
        next_btn p1 = Some (Some href) ->
        urljoin base_url href <> [] ->
        session_get 1 (urljoin base_url href) = Fetched p2 ->
        next_btn p2 = None ->
        exists (s : scraper) (out : outcome (list row)),
          scrape_politifact start_date end_date = Some (s, out)
          /\ requests s = [base_url; urljoin base_url href]
          /\ page_count s = 2).
Proof.
  split; [|split].
  - destruct scrape_politifact_returns as (s & out & Hs & (Hl & Hp & _) & Hf).
    exists s, out. split; [done|]. split; [|exact Hf].
    rewrite Hl. exact Hp.
  - apply while_pages_last_page.
  - intros p1 p2 href Hget1 Hm1 Hbtn1 Hurl Hget2 Hbtn2.
    unfold scrape_politifact, scrape_politifact_run, PAGE_CAP.
    destruct (while_pages_next_page 39 initial p1 href) as [rows ->];
      [done..|].
    change (while_pages start_date end_date 39 _)
      with (while_pages start_date end_date 39
              {| next_page := Some (urljoin base_url href);
                 page_count := 1; buffer := rows;
                 requests := [base_url] |}).
    destruct (while_pages_last_page 38
                {| next_page := Some (urljoin base_url href);
                   page_count := 1; buffer := rows;
                   requests := [base_url] |} p2)
      as (s' & e & -> & Hreq & Hcount); [|exact Hget2|exact Hbtn2|].
    { unfold running. cbn [next_page page_count].
      by destruct (urljoin base_url href). }
    cbn [next_page page_count requests default app] in Hreq, Hcount.
    destruct e as [e|]; eexists s', _; done.
Qed.

(** *** Rows and range *)

Lemma read_csv_dropna_in_range (rows : list row) :
  Forall (in_range start_date end_date) rows ->
  Forall (in_range start_date end_date) (read_csv_dropna rows).
Proof.
  intros H. unfold read_csv_dropna. apply Forall_fmap.
  rewrite Forall_forall in H |- *.
  intros r [_ Hr]%list_elem_of_filter. exact (H r Hr).
Qed.

(** Every row that is written, and every row of the returned table, has
    its date in the range. *)
Lemma scrape_politifact_in_range (fuel : nat) (s : scraper)
  (out : outcome (list row)) :
  scrape_politifact_run start_date end_date fuel = Some (s, out) ->
  Forall (in_range start_date end_date) (buffer s)
  /\ forall df, out = Returned df -> Forall (in_range start_date end_date) df.
Proof.
  unfold scrape_politifact_run.
  destruct (while_pages start_date end_date fuel initial) as [[s' e]|] eqn:Hw;
    [|done].
  destruct (while_pages_inv _ _ _ _ Hw initial_inv) as (_ & _ & Hb).
  destruct e as [e|]; intros [= <- <-]; (split; [done|]); [done|].
  intros df [= <-]. by apply read_csv_dropna_in_range.
Qed.

(** An item later than the range is passed over and the scan goes on. *)
Lemma card_body_after_range (c : card) (d : Z) :
  claim_date_of c = Some d -> (start_date <= d)%Z -> (end_date < d)%Z ->
  card_body start_date end_date c = Continue None.
Proof.
  intros Hd H1 H2. rewrite (card_body_dated c d Hd).
  destruct (Z.ltb_spec d start_date); [lia|].
  destruct (Z.leb_spec start_date d); [|lia].
  destruct (Z.leb_spec d end_date); [lia|]. done.
Qed.

Lemma card_body_before_range (c : card) (d : Z) :
  claim_date_of c = Some d -> (d < start_date)%Z ->
  card_body start_date end_date c = Break.
Proof.
  intros Hd H1. rewrite (card_body_dated c d Hd).
  by destruct (Z.ltb_spec d start_date); [|lia].
Qed.



End CollectorFacts.

Lemma collector_terminates_witness :
  exists (s : scraper) (out : outcome (list row)),
    @scrape_politifact (listing [first_of_two; second_of_two])
      JAN_1_2024 JAN_31_2024 = Some (s, out)
    /\ requests s = [base_url; base_url ++ py "?page=2"]
    /\ page_count s = 2.
Proof.
  apply (proj2 (proj2 (@collector_terminates
                         (listing [first_of_two; second_of_two])
                         JAN_1_2024 JAN_31_2024))
           first_of_two second_of_two (py "?page=2")).
  - reflexivity.
  - repeat constructor. intros text [= <-]. by eexists.
  - reflexivity.
  - discriminate.
  - reflexivity.
  - reflexivity.
Defined.



(** A footer that does not name an author is not handled: the
    exception reaches the caller. *)
Lemma collector_raises_on_footer_without_author :
  exists s : scraper,
    @scrape_politifact (listing [single_page card_without_author])
      JAN_1_2024 JAN_31_2024 = Some (s, Raised AttributeError).
Proof. eexists. vm_compute. reflexivity. Qed.

(** C2, on the code: after an item older than the range on a page that
    has a Next link, the next page is fetched all the same, and its rows
    are collected. *)
Theorem collector_pages_on_after_old_item :
  (exists c : card,
      cards old_item_page = [c]
      /\ @card_body (listing [old_item_page; recent_item_page])
           JAN_1_2024 JAN_31_2024 c = Break)
  /\ exists s : scraper,
      @scrape_politifact (listing [old_item_page; recent_item_page])
        JAN_1_2024 JAN_31_2024
      = Some (s, Returned [ {| author := Some (py "Bob Writer");
                               statement := py "A recent claim";
                               source := Some (py "B. Speaker");
                               date := 19732;
                               label := Some (py "false") |} ])
      /\ requests s = [base_url; base_url ++ py "?page=2"]
      /\ page_count s = 2.
Proof.
  split.
  - eexists. split; reflexivity.
  - eexists. vm_compute. repeat split.
Qed.

(** ** Tables and batch verification *)

Lemma series_get_replace_eq {B : Type} (cols : list (str * B)) (label : str)
  (v : B) :
  label ∈ cols.*1 ->
  series_get label
    ((fun col => if decide (col.1 = label) then (label, v) else col) <$> cols)
  = Some v.
Proof.
  induction cols as [|[k x] rest IH]; cbn [fmap list_fmap fst].
  { by intros ?%elem_of_nil. }
  intros Hin. cbn [series_get].
  destruct (decide (k = label)) as [->|Hne].
  - cbn [series_get]. by rewrite decide_True.
  - cbn [series_get]. rewrite decide_False by done. apply IH.
    apply elem_of_cons in Hin as [Heq|Hin]; [by subst|done].
Qed.

Lemma series_get_replace_ne {B : Type} (cols : list (str * B))
  (label label' : str) (v : B) :
  label' <> label ->
  series_get label'
    ((fun col => if decide (col.1 = label) then (label, v) else col) <$> cols)
  = series_get label' cols.
Proof.
  intros Hne. induction cols as [|[k x] rest IH]; [done|].
  cbn [fmap list_fmap fst series_get].
  destruct (decide (k = label)) as [->|Hk]; cbn [series_get].
  - rewrite !decide_False by done. exact IH.
  - destruct (decide (k = label')); [done|exact IH].
Qed.

Lemma series_get_snoc_eq {B : Type} (cols : list (str * B)) (label : str)
  (v : B) :
  label ∉ cols.*1 -> series_get label (cols ++ [(label, v)]) = Some v.
Proof.
  induction cols as [|[k x] rest IH]; cbn [fmap list_fmap fst app series_get].
  { intros _. by rewrite decide_True. }
  intros Hnin. apply not_elem_of_cons in Hnin as [Hne Hnin].
  rewrite decide_False by done. by apply IH.
Qed.

Lemma series_get_snoc_ne {B : Type} (cols : list (str * B))
  (label label' : str) (v : B) :
  label' <> label ->
  series_get label' (cols ++ [(label, v)]) = series_get label' cols.
Proof.
  intros Hne. induction cols as [|[k x] rest IH]; cbn [app series_get].
  { by rewrite decide_False. }
  destruct (decide (k = label')); [done|exact IH].
Qed.

Lemma getitem_setitem_eq (label : str) (values : list pyval) (df : dataframe) :
  getitem label (setitem label values df) = Some values.
Proof.
  unfold getitem, setitem, has_column. cbn [columns].
  case_bool_decide.
  - by apply series_get_replace_eq.
  - by apply series_get_snoc_eq.
Qed.

Lemma getitem_setitem_ne (label label' : str) (values : list pyval)
  (df : dataframe) :
  label' <> label ->
  getitem label' (setitem label values df) = getitem label' df.
Proof.
  intros Hne. unfold getitem, setitem, has_column. cbn [columns].
  case_bool_decide.
  - by apply series_get_replace_ne.
  - by apply series_get_snoc_ne.
Qed.

(** The labels after an assignment: the same ones, or one more at the
    end. *)
Lemma labels_setitem (label : str) (values : list pyval) (df : dataframe) :
  (columns (setitem label values df)).*1 =
    if has_column label df then (columns df).*1
    else (columns df).*1 ++ [label].
Proof.
  unfold setitem, has_column. cbn [columns]. case_bool_decide.
  - rewrite <- list_fmap_compose. apply list_fmap_ext.
    intros i [k x] _. cbn. by destruct (decide (k = label)).
  - by rewrite fmap_app.
Qed.

Lemma well_formed_setitem (label : str) (values : list pyval) (df : dataframe) :
  well_formed df -> length values = nrows df ->
  well_formed (setitem label values df).
Proof.
  unfold well_formed, setitem, has_column. cbn [columns nrows].
  intros Hwf Hlen. case_bool_decide.
  - apply Forall_fmap. apply (Forall_impl _ _ _ Hwf).
    intros [k x] Hx. cbn. by destruct (decide (k = label)).
  - apply Forall_app. split; [done|]. by constructor.
Qed.

Lemma series_get_elem {B : Type} (cols : list (str * B)) (label : str) (x : B) :
  series_get label cols = Some x -> (label, x) ∈ cols.
Proof.
  induction cols as [|[k y] rest IH]; cbn [series_get]; [done|].
  destruct (decide (k = label)) as [->|].
  - intros [= ->]. apply elem_of_cons. by left.
  - intros H. apply elem_of_cons. right. by apply IH.
Qed.

Section DriverFacts.

Context {E : verifier_env}.

Lemma row_statements_length (table : dataframe) (statements : list pyval) :
  well_formed table -> row_statements table = Returned statements ->
  length statements = nrows table.
Proof.
  unfold well_formed, row_statements, getitem. intros Hwf.
  destruct (nrows table) as [|n] eqn:Hn; [by intros [= <-]|].
  destruct (series_get _ _) as [col|] eqn:Hc; [|done]. intros [= <-].
  apply series_get_elem in Hc. rewrite Forall_forall in Hwf.
  by apply (Hwf _ Hc).
Qed.

(** The calls are made in row order, each in the state the previous one
    left. *)
Lemma verify_rows_app (a b : list pyval) (s : cache * net) :
  verify_rows (a ++ b) s =
    ((verify_rows a s).1 ++ (verify_rows b (verify_rows a s).2).1,
     (verify_rows b (verify_rows a s).2).2).
Proof.
  revert s. induction a as [|st a IH]; intros s.
  { cbn [app verify_rows fst snd]. by destruct (verify_rows b s). }
  cbn [app verify_rows].
  destruct (get_fact_check_result st s) as [res s1]. rewrite IH.
  destruct (verify_rows a s1) as [ra sa]. cbn [fst snd].
  by destruct (verify_rows b sa).
Qed.

Lemma verify_rows_nth (pre post : list pyval) (st : pyval) (s : cache * net) :
  (verify_rows (pre ++ st :: post) s).1 !! length pre =
    Some (get_fact_check_result st (verify_rows pre s).2).1.
Proof.
  rewrite verify_rows_app. cbn [fst].
  rewrite lookup_app_r by (rewrite verify_rows_length; lia).
  rewrite verify_rows_length, Nat.sub_diag. cbn [verify_rows].
  destruct (get_fact_check_result st _) as [res s1].
  by destruct (verify_rows post s1).
Qed.

Lemma add_result_columns_get (results : list result) (df : dataframe) :
  getitem (py "google_verdict") (add_result_columns results df)
  = Some (PyStr ∘ verdict <$> results)
  /\ getitem (py "publisher") (add_result_columns results df)
     = Some (cell ∘ publisher <$> results)
  /\ getitem (py "google_rating") (add_result_columns results df)
     = Some (cell ∘ rating <$> results)
  /\ getitem (py "fact_url") (add_result_columns results df)
     = Some (cell ∘ url <$> results).
Proof.
  unfold add_result_columns. repeat split.
  - rewrite !getitem_setitem_ne by discriminate. apply getitem_setitem_eq.
  - rewrite !getitem_setitem_ne by discriminate. apply getitem_setitem_eq.
  - rewrite !getitem_setitem_ne by discriminate. apply getitem_setitem_eq.
  - apply getitem_setitem_eq.
Qed.

Lemma add_result_columns_other (results : list result) (df : dataframe)
  (label : str) :
  label ∉ RESULT_COLUMNS ->
  getitem label (add_result_columns results df) = getitem label df.
Proof.
  unfold RESULT_COLUMNS, add_result_columns.
  rewrite !not_elem_of_cons. intros (H1 & H2 & H3 & H4 & _).
  by rewrite !getitem_setitem_ne.
Qed.

Lemma labels_setitem_elem (label l : str) (values : list pyval)
  (df : dataframe) :
  l ∈ (columns (setitem label values df)).*1 <->
  l ∈ (columns df).*1 \/ l = label.
Proof.
  rewrite labels_setitem. unfold has_column. case_bool_decide.
  - split; [by left|]. by intros [?| ->].
  - rewrite elem_of_app, list_elem_of_singleton. done.
Qed.

Lemma labels_setitem_prefix (label : str) (values : list pyval)
  (df : dataframe) :
  (columns df).*1 `prefix_of` (columns (setitem label values df)).*1.
Proof.
  rewrite labels_setitem. destruct (has_column label df); [done|].
  by apply prefix_app_r.
Qed.

Lemma add_result_columns_labels (results : list result) (df : dataframe) :
  (forall l : str,
      l ∈ (columns (add_result_columns results df)).*1 <->
      l ∈ (columns df).*1 \/ l ∈ RESULT_COLUMNS)
  /\ (columns df).*1 `prefix_of` (columns (add_result_columns results df)).*1.
Proof.
  unfold add_result_columns, RESULT_COLUMNS. split.
  - intros l. rewrite !labels_setitem_elem, !elem_of_cons, elem_of_nil.
    tauto.
  - repeat (etrans; [|apply labels_setitem_prefix]). done.
Qed.

Lemma add_result_columns_well_formed (results : list result) (df : dataframe) :
  well_formed df -> length results = nrows df ->
  well_formed (add_result_columns results df).
Proof.
  intros Hwf Hlen. unfold add_result_columns.
  repeat (apply well_formed_setitem; [|by rewrite length_fmap]). done.
Qed.

(** C10, as the code has it. For a table in the store that has rows
    with a statement, or no rows, the driver returns the reference it
    was given and changes the store at that reference only; the table
    there keeps its rows, holds the four result columns with the results
    of the calls made in row order, keeps every column of another label
    as it was, and has no label beyond the former ones and those four. A
    column that already bore one of the four labels is overwritten. *)
Theorem verify_all_in_place (df : loc) (h : heap) (s : cache * net)
  (table : dataframe) (statements : list pyval) :
  h !! df = Some table ->
  row_statements table = Returned statements ->
  exists table' : dataframe,
    verify_all df h s
    = Some (Returned df, <[df := table']> h, (verify_rows statements s).2)
    /\ (forall l : loc, l <> df -> (<[df := table']> h) !! l = h !! l)
    /\ nrows table' = nrows table
    /\ (well_formed table -> well_formed table')
    /\ getitem (py "google_verdict") table'
       = Some (PyStr ∘ verdict <$> (verify_rows statements s).1)
    /\ getitem (py "publisher") table'
       = Some (cell ∘ publisher <$> (verify_rows statements s).1)
    /\ getitem (py "google_rating") table'
       = Some (cell ∘ rating <$> (verify_rows statements s).1)
    /\ getitem (py "fact_url") table'
       = Some (cell ∘ url <$> (verify_rows statements s).1)
    /\ (forall label : str,
          label ∉ RESULT_COLUMNS -> getitem label table' = getitem label table)
    /\ (forall label : str,
          label ∈ (columns table').*1 <->
          label ∈ (columns table).*1 \/ label ∈ RESULT_COLUMNS)
    /\ (columns table).*1 `prefix_of` (columns table').*1
    /\ length (verify_rows statements s).1 = length statements
    /\ (forall (pre post : list pyval) (st : pyval),
          statements = pre ++ st :: post ->
          (verify_rows statements s).1 !! length pre
          = Some (get_fact_check_result st (verify_rows pre s).2).1).
Proof.
  intros Hh Hrows.
  exists (add_result_columns (verify_rows statements s).1 table).
  split.
  { unfold verify_all. rewrite Hh, Hrows.
    by destruct (verify_rows statements s). }
  split; [intros l Hl; by apply lookup_insert_ne|].
  split; [done|].
  split.
  { intros Hwf. apply add_result_columns_well_formed; [done|].
    rewrite verify_rows_length. by apply row_statements_length. }
  destruct (add_result_columns_get (verify_rows statements s).1 table)
    as (H1 & H2 & H3 & H4).
  destruct (add_result_columns_labels (verify_rows statements s).1 table)
    as (H5 & H6).
  repeat (split; [done|]).
  split; [intros label; apply add_result_columns_other|].
  repeat (split; [done|]).
  split; [apply verify_rows_length|].
  intros pre post st ->. apply verify_rows_nth.
Qed.

End DriverFacts.

Lemma verify_all_in_place_witness :
  exists table' : dataframe,
    @verify_all (constant_service None (HTTPError (py "503"))) 0
      {[ 0 := verified_before ]} ([], tt)
    = Some (Returned 0, <[0 := table']> {[ 0 := verified_before ]},
            (@verify_rows (constant_service None (HTTPError (py "503")))
               [PyStr (py "The moon is made of cheese")] ([], tt)).2)
    /\ getitem (py "statement") table'
       = Some [PyStr (py "The moon is made of cheese")].
Proof.
  destruct (@verify_all_in_place
              (constant_service None (HTTPError (py "503"))) 0
              {[ 0 := verified_before ]} ([], tt) verified_before
              [PyStr (py "The moon is made of cheese")])
    as (table' & Hrun & _ & _ & _ & _ & _ & _ & _ & Hother & _).
  - reflexivity.
  - reflexivity.
  - exists table'. split; [exact Hrun|].
    rewrite Hother; [reflexivity|].
    unfold RESULT_COLUMNS. rewrite !not_elem_of_cons.
    repeat split; try discriminate. apply not_elem_of_nil.
Defined.

(** C10, as stated, fails: a column that is already called publisher
    does not keep its values. *)
Lemma verify_all_overwrites_publisher :
  getitem (py "publisher") verified_before = Some [PyStr (py "Snopes")]
  /\ exists (table' : dataframe) (h' : heap) (s' : cache * unit),
       @verify_all (constant_service None (HTTPError (py "503"))) 0
         {[ 0 := verified_before ]} ([], tt)
       = Some (Returned 0, h', s')
       /\ h' !! 0 = Some table'
       /\ getitem (py "publisher") table' = Some [PyNone].
Proof.
  split; [reflexivity|].
  eexists _, _, _. split; [reflexivity|]. split.
  - apply lookup_insert_eq.
  - reflexivity.
Qed.

(** ** Verdict summary *)

Section ValueCountsFacts.

Context {A : Type} `{EqDecision A}.

Lemma series_get_is_Some {B : Type} (v : A) (s : list (A * B)) :
  v ∈ s.*1 -> is_Some (series_get v s).
Proof.
  induction s as [|[k x] rest IH]; cbn [fmap list_fmap fst series_get].
  { by intros ?%elem_of_nil. }
  intros Hin. destruct (decide (k = v)); [done|].
  apply IH. apply elem_of_cons in Hin as [Heq|Hin]; [by subst|done].
Qed.

Lemma series_get_fmap {B C : Type} (f : B -> C) (v : A) (s : list (A * B)) :
  series_get v ((fun kx => (kx.1, f kx.2)) <$> s) = f <$> series_get v s.
Proof.
  induction s as [|[k x] rest IH]; [done|].
  cbn [fmap list_fmap fst snd series_get].
  by destruct (decide (k = v)).
Qed.

(** With distinct labels, an entry is found exactly when it is there. *)
Lemma series_get_Some {B : Type} (v : A) (x : B) (s : list (A * B)) :
  NoDup s.*1 -> series_get v s = Some x <-> (v, x) ∈ s.
Proof.
  induction s as [|[k y] rest IH]; cbn [fmap list_fmap fst series_get].
  { intros _. split; [done|]. by intros ?%elem_of_nil. }
  intros [Hk Hnd]%NoDup_cons. rewrite elem_of_cons.
  destruct (decide (k = v)) as [->|Hne].
  - split; [intros [= ->]; by left|].
    intros [[= ->]|Hin]; [done|]. destruct Hk.
    apply list_elem_of_fmap. by exists (v, x).
  - rewrite (IH Hnd). split; [by right|]. by intros [[= ? ?]|?].
Qed.

Lemma series_get_perm {B : Type} (v : A) (s s' : list (A * B)) :
  NoDup s.*1 -> s ≡ₚ s' -> series_get v s = series_get v s'.
Proof.
  intros Hnd Hp.
  assert (Hnd' : NoDup s'.*1) by by rewrite <- Hp.
  destruct (series_get v s) as [x|] eqn:Hs.
  - symmetry. apply (series_get_Some _ _ _ Hnd').
    rewrite <- Hp. by apply (series_get_Some _ _ _ Hnd).
  - destruct (series_get v s') as [x|] eqn:Hs'; [|done].
    apply (series_get_Some _ _ _ Hnd') in Hs'. rewrite <- Hp in Hs'.
    apply (series_get_Some _ _ _ Hnd) in Hs'. congruence.
Qed.

(** *** Counting *)

Lemma bump_labels (v : A) (counts : list (A * nat)) :
  (bump v counts).*1 =
    if bool_decide (v ∈ counts.*1) then counts.*1 else counts.*1 ++ [v].
Proof.
  induction counts as [|[k n] rest IH]; [done|].
  cbn [bump fmap list_fmap fst].
  destruct (decide (k = v)) as [->|Hne].
  - cbn [fmap list_fmap fst]. rewrite bool_decide_eq_true_2; [done|].
    apply elem_of_cons. by left.
  - cbn [fmap list_fmap fst]. change (list_fmap _ _ fst) with (fmap (M:=list) (@fst A nat)).
    rewrite IH. case_bool_decide as Hin.
    + rewrite bool_decide_eq_true_2; [done|]. apply elem_of_cons. by right.
    + rewrite bool_decide_eq_false_2; [done|].
      intros [?|?]%elem_of_cons; [by subst|done].
Qed.

Lemma bump_NoDup (v : A) (counts : list (A * nat)) :
  NoDup counts.*1 -> NoDup (bump v counts).*1.
Proof.
  intros Hnd. rewrite bump_labels. case_bool_decide; [done|].
  apply NoDup_app. split; [done|]. split; [|apply NoDup_singleton].
  intros x Hx ->%list_elem_of_singleton. done.
Qed.

Lemma bump_get (u v : A) (counts : list (A * nat)) :
  default 0 (series_get u (bump v counts)) =
    (if decide (v = u) then 1 else 0) + default 0 (series_get u counts).
Proof.
  induction counts as [|[k n] rest IH]; cbn [bump series_get].
  { by destruct (decide (v = u)). }
  destruct (decide (k = v)) as [->|Hne]; cbn [series_get].
  - by destruct (decide (v = u)).
  - destruct (decide (k = u)) as [->|]; [|exact IH].
    by rewrite decide_False.
Qed.

Lemma bump_sum (v : A) (counts : list (A * nat)) :
  sum_list (bump v counts).*2 = S (sum_list counts.*2).
Proof.
  induction counts as [|[k n] rest IH]; [done|].
  cbn [bump]. destruct (decide (k = v)); cbn [fmap list_fmap snd sum_list].
  - done.
  - change (list_fmap _ _ snd) with (fmap (M:=list) (@snd A nat)).
    rewrite IH. lia.
Qed.

Lemma tally_spec (col : list A) (counts : list (A * nat)) :
  NoDup counts.*1 ->
  NoDup (tally col counts).*1
  /\ (forall v, v ∈ (tally col counts).*1 <-> v ∈ col \/ v ∈ counts.*1)
  /\ (forall v, default 0 (series_get v (tally col counts))
               = occurrences v col + default 0 (series_get v counts))
  /\ sum_list (tally col counts).*2 = length col + sum_list counts.*2.
Proof.
  revert counts. induction col as [|x col IH]; intros counts Hnd.
  { cbn [tally]. repeat split; try done.
    - by right.
    - by intros [?%elem_of_nil|?]. }
  cbn [tally].
  destruct (IH (bump x counts) (bump_NoDup x counts Hnd))
    as (H1 & H2 & H3 & H4).
  split; [done|]. split; [|split].
  - intros v. rewrite H2, bump_labels, elem_of_cons.
    case_bool_decide as Hin.
    + split; [tauto|]. intros [[->|?]|?]; tauto.
    + rewrite elem_of_app, list_elem_of_singleton. tauto.
  - intros v. rewrite H3, bump_get. unfold occurrences.
    rewrite filter_cons.
    destruct (decide (x = v)) as [->|Hne].
    + cbn [length]. lia.
    + lia.
  - rewrite H4, bump_sum. cbn [length]. lia.
Qed.

(** *** Sorting *)

Lemma insert_desc_perm (x : A * nat) (l : list (A * nat)) :
  insert_desc x l ≡ₚ x :: l.
Proof.
  induction l as [|y rest IH]; [done|]. cbn [insert_desc].
  destruct (y.2 <=? x.2)%nat; [done|].
  rewrite IH. apply Permutation_swap.
Qed.

Lemma sort_desc_perm (l : list (A * nat)) : sort_desc l ≡ₚ l.
Proof.
  unfold sort_desc. induction l as [|x rest IH]; [done|].
  cbn [foldr]. by rewrite insert_desc_perm, IH.
Qed.

(** *** The counts of a column *)

Lemma value_counts_spec (col : list A) :
  NoDup (value_counts col).*1
  /\ (forall v, v ∈ (value_counts col).*1 <-> v ∈ col)
  /\ (forall v, v ∈ col ->
        series_get v (value_counts col) = Some (occurrences v col))
  /\ sum_list (value_counts col).*2 = length col.
Proof.
  unfold value_counts.
  destruct (tally_spec col [] (NoDup_nil_2)) as (H1 & H2 & H3 & H4).
  pose proof (sort_desc_perm (tally col [])) as Hp.
  assert (Hnd : NoDup (sort_desc (tally col [])).*1) by by rewrite Hp.
  assert (Hin : forall v, v ∈ (sort_desc (tally col [])).*1 <-> v ∈ col).
  { intros v. rewrite Hp, H2. split; [|by left].
    by intros [?|?%elem_of_nil]. }
  split; [done|]. split; [done|]. split.
  - intros v Hv.
    rewrite (series_get_perm v _ _ Hnd Hp).
    specialize (H3 v). cbn [series_get default] in H3.
    destruct (series_get_is_Some v (tally col [])) as [n Hn].
    { apply H2. by left. }
    rewrite Hn in H3 |- *. cbn in H3. f_equal. lia.
  - rewrite Hp, H4. cbn. lia.
Qed.

End ValueCountsFacts.

Lemma value_counts_normalized_get (col : list str) (v : str) :
  v ∈ col ->
  series_get v (value_counts_normalized col)
  = Some (float_of_nat (occurrences v col) / float_of_nat (length col))%float.
Proof.
  intros Hv. unfold value_counts_normalized.
  destruct (value_counts_spec col) as (_ & _ & Hget & Hsum).
  rewrite Hsum.
  rewrite (series_get_fmap
             (fun n => (float_of_nat n / float_of_nat (length col))%float)).
  by rewrite (Hget v Hv).
Qed.

(** *** Rounding, checked on every table of up to a thousand rows *)

Lemma counts_ok_spec (fuel : nat) (count total i : Z) :
  counts_ok fuel count total = true ->
  (0 <= i < Z.of_nat fuel)%Z ->
  share_ok (count + i) total = true.
Proof.
  revert count i. induction fuel as [|fuel IH]; intros count i Hok Hi; [lia|].
  cbn [counts_ok] in Hok. apply andb_true_iff in Hok as [H0 Hrest].
  destruct (decide (i = 0%Z)) as [->|Hne].
  - by rewrite Z.add_0_r.
  - replace (count + i)%Z with (count + 1 + (i - 1))%Z by lia.
    apply IH; [done|lia].
Qed.

Lemma totals_ok_spec (fuel : nat) (first count total : Z) :
  totals_ok fuel first = true ->
  (0 <= first)%Z ->
  (first <= total < first + Z.of_nat fuel)%Z ->
  (0 <= count <= total)%Z ->
  share_ok count total = true.
Proof.
  revert first. induction fuel as [|fuel IH]; intros first Hok H0 Ht Hc; [lia|].
  cbn [totals_ok] in Hok. apply andb_true_iff in Hok as [Hrow Hrest].
  destruct (decide (total = first)) as [->|Hne].
  - replace count with (0 + count)%Z by lia.
    apply (counts_ok_spec _ _ _ _ Hrow). lia.
  - apply (IH (first + 1)%Z); [done|lia|lia|done].
Qed.

Lemma shares_checked : totals_ok ROWS_CHECKED 1 = true.
Proof. vm_compute. reflexivity. Qed.

Lemma occurrences_le {A : Type} `{EqDecision A} (v : A) (col : list A) :
  occurrences v col <= length col.
Proof. unfold occurrences. apply length_filter. Qed.

(** The share of a value in a table of up to a thousand rows is a whole
    number of tenths, and a nearest one. *)
Lemma percentage_share_tenths (col : list str) (v : str) :
  v ∈ col -> length col <= ROWS_CHECKED ->
  exists k : Z,
    is_tenths (percentage_share col v) k = true
    /\ (Z.abs (2000 * Z.of_nat (occurrences v col)
                - 2 * k * Z.of_nat (length col))
        <= Z.of_nat (length col))%Z.
Proof.
  intros Hv Hlen.
  assert (Hpos : 0 < length col) by (destruct col; [by apply elem_of_nil in Hv|cbn; lia]).
  pose proof (occurrences_le v col) as Hocc.
  pose proof (totals_ok_spec ROWS_CHECKED 1
                (Z.of_nat (occurrences v col)) (Z.of_nat (length col))
                shares_checked) as Hok.
  unfold ROWS_CHECKED in Hok, Hlen.
  specialize (Hok ltac:(lia) ltac:(lia) ltac:(lia)).
  unfold share_ok in Hok.
  apply orb_true_iff in Hok as [Hok|Hok];
    apply andb_true_iff in Hok as [Hx Hk];
    apply Z.leb_le in Hk; eexists; split; [exact Hx|exact Hk|exact Hx|exact Hk].
Qed.

(** C8. The summary holds one entry for each distinct value of the
    verdict column, and that entry is the count of the value over the
    number of rows, times one hundred, rounded to one decimal: in every
    table of up to a thousand rows it is a whole number of tenths that
    differs from the exact share by at most one twentieth. The column
    True, True, False, Unverified gives 50.0, 25.0 and 25.0; two in
    three rows give 66.7 and one in three 33.3; fifteen in sixteen give
    93.8 and one in sixteen 6.2. *)
Theorem verdict_counts_shares :
  (forall (google_verdict : list str) (v : str),
      v ∈ google_verdict ->
      series_get v (verdict_counts google_verdict)
      = Some (percentage_share google_verdict v))
  /\ (forall (google_verdict : list str) (v : str),
        v ∈ (verdict_counts google_verdict).*1 <-> v ∈ google_verdict)
  /\ (forall google_verdict : list str,
        NoDup (verdict_counts google_verdict).*1)
  /\ verdict_counts [py "True"; py "True"; py "False"; py "Unverified"]
     = [(py "True", 50.0%float); (py "False", 25.0%float);
        (py "Unverified", 25.0%float)]
  /\ (forall (google_verdict : list str) (v : str),
        v ∈ google_verdict ->
        length google_verdict <= 1000 ->
        exists (x : float) (k : Z),
          series_get v (verdict_counts google_verdict) = Some x
          /\ (x =? float_of_Z k / 10)%float = true
          /\ (Z.abs (2000 * Z.of_nat (occurrences v google_verdict)
                      - 2 * k * Z.of_nat (length google_verdict))
              <= Z.of_nat (length google_verdict))%Z)
  /\ verdict_counts thirds_column
     = [(py "True", (float_of_Z 667 / 10)%float);
        (py "False", (float_of_Z 333 / 10)%float)]
  /\ verdict_counts sixteenths_column
     = [(py "True", (float_of_Z 938 / 10)%float);
        (py "False", (float_of_Z 62 / 10)%float)].
Proof.
  assert (Hlabels : forall col : list str,
             (verdict_counts col).*1 = (value_counts col).*1).
  { intros col. unfold verdict_counts, value_counts_normalized.
    rewrite <- !list_fmap_compose. by apply list_fmap_ext. }
  assert (Hget : forall (col : list str) (v : str),
             v ∈ col ->
             series_get v (verdict_counts col)
             = Some (percentage_share col v)).
  { intros col v Hv. unfold verdict_counts, percentage_share.
    rewrite (series_get_fmap (fun p => round1 (p * 100)%float)).
    by rewrite (value_counts_normalized_get col v Hv). }
  split; [exact Hget|]. split; [|split; [|split; [|split; [|split]]]].
  - intros col v. rewrite Hlabels. apply value_counts_spec.
  - intros col. rewrite Hlabels. apply value_counts_spec.
  - vm_compute. reflexivity.
  - intros col v Hv Hlen.
    destruct (percentage_share_tenths col v Hv Hlen) as (k & Hx & Hk).
    exists (percentage_share col v), k. by rewrite (Hget col v Hv).
  - vm_compute. reflexivity.
  - vm_compute. reflexivity.
Qed.

Lemma verdict_counts_shares_witness :
  series_get (py "False")
    (verdict_counts [py "True"; py "True"; py "False"; py "Unverified"])
  = Some 25.0%float
  /\ exists (x : float) (k : Z),
       series_get (py "True") (verdict_counts thirds_column) = Some x
       /\ (x =? float_of_Z k / 10)%float = true
       /\ (Z.abs (2000 * Z.of_nat (occurrences (py "True") thirds_column)
                   - 2 * k * Z.of_nat (length thirds_column))
           <= Z.of_nat (length thirds_column))%Z.
Proof.
  split.
  - exact (proj1 verdict_counts_shares
             [py "True"; py "True"; py "False"; py "Unverified"] (py "False")
             ltac:(repeat constructor)).
  - apply (proj1 (proj2 (proj2 (proj2 (proj2 verdict_counts_shares))))
             thirds_column (py "True")).
    + repeat constructor.
    + vm_compute. lia.
Defined.

(** * Further properties *)

(** ** Text cleaning *)

Lemma sub_class_empty_length (cls : list char) (s : str) :
  length (sub_class_empty cls s) <= length s.
Proof.
  induction s as [|c t IH]; cbn [sub_class_empty length]; [done|].
  destruct (in_class cls c); cbn [length]; lia.
Qed.

Lemma sub_spaces_from_length (b : bool) (s : str) :
  length (sub_spaces_from b s) <= length s.
Proof.
  revert b. induction s as [|c t IH]; intros b;
    cbn [sub_spaces_from length]; [done|].
  pose proof (IH true). pose proof (IH false).
  destruct (isspace c); [destruct b|]; cbn [length]; lia.
Qed.

Lemma lstrip_length (s : str) : length (lstrip s) <= length s.
Proof.
  induction s as [|c t IH]; cbn [lstrip length]; [done|].
  destruct (isspace c); cbn [length]; lia.
Qed.

Lemma rstrip_length (s : str) : length (rstrip s) <= length s.
Proof.
  destruct (rstrip_prefix s) as [u Hu].
  rewrite Hu at 2. rewrite length_app. lia.
Qed.

Lemma cleaned_length (s : str) : length (cleaned s) <= length s.
Proof.
  unfold cleaned, strip, sub_spaces.
  etrans; [apply rstrip_length|]. etrans; [apply lstrip_length|].
  etrans; [apply sub_spaces_from_length|]. apply sub_class_empty_length.
Qed.

Lemma single_spaced_lookup (s : str) (i : nat) (c : char) :
  single_spaced s = true -> s !! i = Some c -> isspace c = true -> c = SPACE.
Proof.
  revert i. induction s as [|d t IH]; intros i Hs Hi Hc; [done|].
  cbn [single_spaced] in Hs. apply andb_true_iff in Hs as [Hd Ht].
  destruct i as [|i].
  - injection Hi as ->. rewrite Hc in Hd.
    apply andb_true_iff in Hd as [Hd _]. by apply N.eqb_eq in Hd.
  - by apply (IH i).
Qed.

(** The shape of every result: none of the deleted characters, no
    whitespace in front, and no whitespace but single spaces. *)
Theorem clean_text_shape (text : pyval) :
  no_quotes (clean_text text) = true
  /\ head_not_space (clean_text text) = true
  /\ single_spaced (clean_text text) = true.
Proof.
  destruct text as [| | | |s]; try done. cbn [clean_text].
  pose proof (normalized_cleaned s) as Hn. unfold normalized in Hn.
  apply andb_true_iff in Hn as [[[Hq Hh]%andb_true_iff _]%andb_true_iff Hs].
  split; [by apply no_quotes_take|]. split; [|by apply single_spaced_take].
  destruct (cleaned s); done.
Qed.

(** Cleaning never makes a text longer. *)
Theorem clean_text_not_longer (s : str) :
  length (clean_text (PyStr s)) <= length s.
Proof.
  cbn [clean_text]. rewrite length_take.
  pose proof (cleaned_length s). lia.
Qed.

(** A second pass may still change the text, a third one never does. *)
Theorem clean_text_stable_after_two (text : pyval) :
  clean_text (PyStr (clean_text (PyStr (clean_text text))))
  = clean_text (PyStr (clean_text text)).
Proof.
  apply clean_text_idempotent_short.
  etrans; [apply cleaned_length|].
  destruct text as [| | | |s]; cbn [clean_text length]; try lia.
  rewrite length_take. lia.
Qed.

(** Exactly when a second pass changes nothing: unless the text was cut
    and the cut fell just after a space. *)
Theorem clean_text_idempotent_iff (s : str) :
  clean_text (PyStr (clean_text (PyStr s))) = clean_text (PyStr s)
  <-> ~ (250 < length (cleaned s) /\ cleaned s !! 249 = Some SPACE).
Proof.
  split.
  - intros Heq [Hlen Hsp].
    destruct (clean_text_twice_cut_at_space s Hlen Hsp) as [H1 H2].
    rewrite H2, H1 in Heq.
    apply (f_equal length) in Heq. rewrite length_app in Heq.
    cbn [length] in Heq. lia.
  - intros Hno. destruct (decide (length (cleaned s) <= 250)) as [Hle|Hgt].
    { by apply clean_text_idempotent_short. }
    pose proof (normalized_cleaned s) as Hn. unfold normalized in Hn.
    apply andb_true_iff in Hn
      as [[[Hq Hh]%andb_true_iff _]%andb_true_iff Hs].
    set (t := cleaned s) in *.
    destruct (lookup_lt_is_Some_2 t 249) as [c Hc]; [lia|].
    assert (Hcs : isspace c = false).
    { destruct (isspace c) eqn:Hsp; [|done].
      destruct Hno. split; [lia|].
      pose proof (single_spaced_lookup t 249 c Hs Hc Hsp) as <-.
      exact Hc. }
    change (take 250 (cleaned (take 250 t)) = take 250 t).
    rewrite cleaned_id; [by rewrite take_take|].
    unfold normalized.
    rewrite no_quotes_take, single_spaced_take by done.
    assert (Hlast : last_not_space (take 250 t) = true).
    { unfold last_not_space. rewrite last_lookup, length_take.
      replace (Init.Nat.pred (250 `min` length t)) with 249 by lia.
      rewrite lookup_take_lt by lia. by rewrite Hc, Hcs. }
    assert (Hhead : head_not_space (take 250 t) = true).
    { destruct t; [cbn in Hgt; lia|exact Hh]. }
    by rewrite Hhead, Hlast.
Qed.

(** ** Fact-check lookup *)

Lemma startswith_app (s k : str) :
  startswith s k = true <-> exists post, s = k ++ post.
Proof.
  revert s. induction k as [|a k IH]; intros s.
  { split; [by exists s|]. by destruct s. }
  destruct s as [|b s]; cbn [startswith].
  { split; [done|]. by intros [post ?]. }
  rewrite andb_true_iff, N.eqb_eq, IH. split.
  - intros [-> [post ->]]. by exists post.
  - intros [post [= -> ->]]. split; [done|]. by exists post.
Qed.

(** [str_in] is the substring test. *)
Lemma str_in_app (k s : str) :
  str_in k s = true <-> exists pre post, s = pre ++ k ++ post.
Proof.
  induction s as [|b s IH]; cbn [str_in]; rewrite orb_true_iff.
  - rewrite startswith_app. split.
    + intros [[post ->]|?]; [|done]. by exists [], post.
    + intros (pre & post & Hs). left.
      destruct pre; [by exists post|done].
  - rewrite startswith_app, IH. split.
    + intros [[post ->]|(pre & post & ->)]; [by exists [], post|].
      by exists (b :: pre), post.
    + intros (pre & post & Hs). destruct pre as [|c pre].
      * left. by exists post.
      * right. injection Hs as -> ->. by exists pre, post.
Qed.

Lemma str_in_suffix (a k s : str) :
  str_in (a ++ k) s = true -> str_in k s = true.
Proof.
  rewrite !str_in_app. intros (pre & post & ->).
  exists (pre ++ a), post. by rewrite <- !app_assoc.
Qed.

(** The fourth true keyword holds the first one, so it decides nothing
    by itself: the test gives the same answer without it. *)
Theorem mostly_true_redundant (text : str) :
  any_in TRUE_KEYS text
  = any_in [py "true"; py "accurate"; py "correct"] text.
Proof.
  unfold any_in, TRUE_KEYS. cbn [existsb].
  destruct (str_in (py "true") text) eqn:Ht; [done|].
  destruct (str_in (py "mostly true") text) eqn:Hm; [|done].
  change (py "mostly true") with (py "mostly " ++ py "true") in Hm.
  apply str_in_suffix in Hm. congruence.
Qed.

Section VerifierMore.

Context {E : verifier_env}.

Lemma first_match_cases (reviews : list review_json) :
  first_match reviews = unverified
  \/ (exists r, first_match reviews = decided (py "False") r)
  \/ (exists r, first_match reviews = decided (py "True") r).
Proof.
  unfold first_match.
  destruct (List.find _ reviews) as [r|]; [|by left].
  destruct (rated_false r); right; [left|right]; by exists r.
Qed.

Lemma fact_check_cases (statement : pyval) (w : net) :
  (fact_check statement w).1 = key_missing
  \/ (fact_check statement w).1 = unverified
  \/ (exists e, (fact_check statement w).1 = api_error e)
  \/ (exists r, (fact_check statement w).1 = decided (py "False") r)
  \/ (exists r, (fact_check statement w).1 = decided (py "True") r).
Proof.
  unfold fact_check.
  destruct (negb (truthy FACT_API_KEY)); [by left|].
  destruct (negb (truthy (Some (clean_text statement)))); [by right; left|].
  destruct (requests_get _ _ w) as [[e|e|body] w']; cbn [fst].
  - right; right; left. by exists e.
  - right; right; left. by exists e.
  - rewrite classify_first_match.
    destruct (first_match_cases (reviews_in_order body))
      as [->|[[r ->]|[r ->]]].
    + by right; left.
    + right; right; right; left. by exists r.
    + right; right; right; right. by exists r.
Qed.

(** Whatever a call meets, its verdict is one of the five, its
    publisher and url are filled in exactly for True and False, and its
    rating exactly for True, False and API Error. *)
Theorem verifier_result_shape (statement : pyval) (c : cache) (w : net) :
  cache_ok c ->
  verdict (get_fact_check_result statement (c, w)).1 ∈ VERDICTS
  /\ (is_Some (publisher (get_fact_check_result statement (c, w)).1)
      <-> verdict (get_fact_check_result statement (c, w)).1 = py "True"
          \/ verdict (get_fact_check_result statement (c, w)).1 = py "False")
  /\ (is_Some (url (get_fact_check_result statement (c, w)).1)
      <-> verdict (get_fact_check_result statement (c, w)).1 = py "True"
          \/ verdict (get_fact_check_result statement (c, w)).1 = py "False")
  /\ (is_Some (rating (get_fact_check_result statement (c, w)).1)
      <-> verdict (get_fact_check_result statement (c, w)).1 = py "True"
          \/ verdict (get_fact_check_result statement (c, w)).1 = py "False"
          \/ verdict (get_fact_check_result statement (c, w)).1
             = py "API Error").
Proof.
  intros Hc.
  destruct (get_fact_check_result_sound statement c w Hc) as [[w0 ->] _].
  unfold VERDICTS.
  destruct (fact_check_cases statement w0)
    as [->|[->|[[e ->]|[[r ->]|[r ->]]]]];
    cbn [key_missing unverified api_error decided verdict publisher url
         rating];
    rewrite !elem_of_cons;
    (split; [tauto|]);
    repeat split;
    try (intros [x Hx]; discriminate Hx);
    try (intros H; repeat destruct H as [H|H]; discriminate H);
    try (intros _; eauto);
    try tauto.
Qed.

(** Memoisation: a second call with the same statement returns the same
    result and leaves the cache and the world as they are. *)
Theorem get_fact_check_result_again (statement : pyval) (s : cache * net) :
  get_fact_check_result statement (get_fact_check_result statement s).2
  = ((get_fact_check_result statement s).1,
     (get_fact_check_result statement s).2).
Proof.
  unfold get_fact_check_result at 2 3 4.
  destruct s as [c w]. cbn [fst snd].
  destruct (cache_lookup c statement) as [r|] eqn:El.
  - cbn [fst snd]. unfold get_fact_check_result. cbn [fst snd].
    by rewrite El.
  - destruct (fact_check statement w) as [r w'] eqn:Ef. cbn [fst snd].
    unfold get_fact_check_result. cbn [fst snd cache_lookup].
    by rewrite decide_True.
Qed.

End VerifierMore.

(** Without a key, or when nothing is left of the statement after
    cleaning, no request is made: the result does not depend on the
    network function, and the world is left as it is. *)
Theorem fact_check_without_request (E : verifier_env)
  (get : str -> str -> @net E -> http_outcome * @net E)
  (statement : pyval) (w : @net E) :
  truthy (@FACT_API_KEY E) = false \/ clean_text statement = [] ->
  @fact_check (with_requests_get E get) statement w
  = @fact_check E statement w
  /\ (@fact_check E statement w).2 = w.
Proof.
  intros Hno. unfold fact_check.
  change (@FACT_API_KEY (with_requests_get E get)) with (@FACT_API_KEY E).
  destruct (truthy (@FACT_API_KEY E)) eqn:Hk; cbn [negb]; [|done].
  destruct Hno as [Hno|Hq]; [done|]. by rewrite Hq.
Qed.

Lemma fact_check_without_request_witness :
  @fact_check
    (with_requests_get
       (constant_service (Some (py "key")) (HTTPError (py "503")))
       (fun _ _ w => (TransportError (py "timeout"), w)))
    (PyStr (py "?!")) tt
  = @fact_check (constant_service (Some (py "key")) (HTTPError (py "503")))
      (PyStr (py "?!")) tt
  /\ (@fact_check (constant_service (Some (py "key")) (HTTPError (py "503")))
        (PyStr (py "?!")) tt).2 = tt.
Proof.
  apply (fact_check_without_request
           (constant_service (Some (py "key")) (HTTPError (py "503")))).
  right. reflexivity.
Defined.

Lemma verifier_result_shape_witness :
  verdict (@get_fact_check_result
             (constant_service (Some (py "key")) (HTTPError (py "503")))
             (PyStr (py "The moon is made of cheese.")) ([], tt)).1
  ∈ VERDICTS.
Proof.
  apply (@verifier_result_shape
           (constant_service (Some (py "key")) (HTTPError (py "503")))
           (PyStr (py "The moon is made of cheese.")) [] tt).
  constructor.
Defined.

(** ** Batch verification *)

Section DriverMore.

Context {E : verifier_env}.

(** *** The cache during a batch *)

Lemma get_fact_check_result_keeps (statement k : pyval) (r : result)
  (s : cache * net) :
  cache_lookup s.1 k = Some r ->
  cache_lookup (get_fact_check_result statement s).2.1 k = Some r.
Proof.
  intros Hk. unfold get_fact_check_result.
  destruct (cache_lookup s.1 statement) as [r'|] eqn:El; [done|].
  destruct (fact_check statement s.2) as [r' w']. cbn [fst snd cache_lookup].
  rewrite decide_False; [done|]. intros ->. congruence.
Qed.

Lemma get_fact_check_result_cached (statement : pyval) (s : cache * net) :
  cache_lookup (get_fact_check_result statement s).2.1 statement
  = Some (get_fact_check_result statement s).1.
Proof.
  unfold get_fact_check_result.
  destruct (cache_lookup s.1 statement) as [r'|] eqn:El; [done|].
  destruct (fact_check statement s.2) as [r' w']. cbn [fst snd cache_lookup].
  by rewrite decide_True.
Qed.

Lemma verify_rows_keeps (statements : list pyval) (k : pyval) (r : result)
  (s : cache * net) :
  cache_lookup s.1 k = Some r ->
  cache_lookup (verify_rows statements s).2.1 k = Some r.
Proof.
  revert s. induction statements as [|st rest IH]; intros s Hk; [done|].
  cbn [verify_rows].
  pose proof (get_fact_check_result_keeps st k r s Hk) as Hk1.
  destruct (get_fact_check_result st s) as [res s1]. cbn [snd] in Hk1.
  specialize (IH s1 Hk1). by destruct (verify_rows rest s1).
Qed.

(** After a batch the cache holds, for every row, the result that the
    row was given. *)
Lemma verify_rows_cached (statements : list pyval) (s : cache * net)
  (i : nat) (st : pyval) (r : result) :
  statements !! i = Some st ->
  (verify_rows statements s).1 !! i = Some r ->
  cache_lookup (verify_rows statements s).2.1 st = Some r.
Proof.
  revert s i. induction statements as [|st0 rest IH]; intros s i Hst Hr;
    [done|].
  cbn [verify_rows] in *.
  pose proof (get_fact_check_result_cached st0 s) as Hc.
  destruct (get_fact_check_result st0 s) as [res s1]. cbn [fst snd] in Hc.
  pose proof (verify_rows_keeps rest st0 res s1 Hc) as Hk.
  specialize (IH s1).
  destruct (verify_rows rest s1) as [results s2]. cbn [fst snd] in *.
  destruct i as [|i].
  - injection Hst as <-. injection Hr as <-. exact Hk.
  - by apply (IH i).
Qed.

(** A batch over rows whose results are all in the cache makes no new
    call. *)
Lemma verify_rows_all_cached (statements : list pyval) (results : list result)
  (s : cache * net) :
  Forall2 (fun st r => cache_lookup s.1 st = Some r) statements results ->
  verify_rows statements s = (results, s).
Proof.
  induction 1 as [|st r statements results Hst _ IH]; [done|].
  cbn [verify_rows]. unfold get_fact_check_result. rewrite Hst.
  by rewrite IH.
Qed.

(** Rows with the same statement get the same result. *)
Theorem verify_rows_same_statement (statements : list pyval)
  (s : cache * net) (i j : nat) (st : pyval) :
  statements !! i = Some st -> statements !! j = Some st ->
  (verify_rows statements s).1 !! i = (verify_rows statements s).1 !! j.
Proof.
  intros Hi Hj.
  destruct (lookup_lt_is_Some_2 (verify_rows statements s).1 i) as [ri Hri].
  { rewrite verify_rows_length. by eapply lookup_lt_Some. }
  destruct (lookup_lt_is_Some_2 (verify_rows statements s).1 j) as [rj Hrj].
  { rewrite verify_rows_length. by eapply lookup_lt_Some. }
  pose proof (verify_rows_cached statements s i st ri Hi Hri).
  pose proof (verify_rows_cached statements s j st rj Hj Hrj).
  congruence.
Qed.

(** A batch run again right after gives the same results and changes
    neither the cache nor the world. *)
Lemma verify_rows_again (statements : list pyval) (s : cache * net) :
  verify_rows statements (verify_rows statements s).2
  = ((verify_rows statements s).1, (verify_rows statements s).2).
Proof.
  apply verify_rows_all_cached.
  apply Forall2_same_length_lookup_2.
  { by rewrite verify_rows_length. }
  intros i st r Hst Hr. by apply (verify_rows_cached statements s i).
Qed.

(** *** Tables without rows, tables without statements *)

(** A table without rows is given the four columns, empty, without any
    call, whether or not it has a statement column. *)
Theorem verify_all_no_rows (df : loc) (h : heap) (s : cache * net)
  (table : dataframe) :
  h !! df = Some table -> nrows table = 0 ->
  verify_all df h s
  = Some (Returned df, <[df := add_result_columns [] table]> h, s).
Proof.
  intros Hh Hn. unfold verify_all, row_statements. by rewrite Hh, Hn.
Qed.

(** A table with rows but no statement column raises, before any call:
    the store, the cache and the world are as they were. *)
Theorem verify_all_no_statement (df : loc) (h : heap) (s : cache * net)
  (table : dataframe) :
  h !! df = Some table -> nrows table <> 0 ->
  has_column (py "statement") table = false ->
  verify_all df h s = Some (Raised AttributeError, h, s).
Proof.
  intros Hh Hn Hc. unfold verify_all, row_statements. rewrite Hh.
  destruct (nrows table) as [|n]; [done|].
  destruct (getitem (py "statement") table) as [col|] eqn:Hg; [|done].
  apply series_get_elem in Hg. unfold has_column in Hc.
  apply bool_decide_eq_false in Hc. destruct Hc.
  apply list_elem_of_fmap. by exists (py "statement", col).
Qed.

(** *** Verifying twice *)

Lemma setitem_holds (label : str) (values : list pyval) (df : dataframe) :
  column_holds label values (setitem label values df).
Proof.
  unfold column_holds. split.
  - unfold has_column. apply bool_decide_eq_true.
    apply labels_setitem_elem. by right.
  - unfold setitem, has_column. cbn [columns]. case_bool_decide.
    + intros col [[k x] [-> Hin]]%list_elem_of_fmap. cbn [fst].
      destruct (decide (k = label)); cbn [fst snd]; [done|]. by intros ?.
    + intros col [Hin| ->%list_elem_of_singleton]%elem_of_app; [|done].
      intros Hl. destruct H. apply list_elem_of_fmap. by exists col.
Qed.

Lemma setitem_keeps (label label' : str) (values values' : list pyval)
  (df : dataframe) :
  label' <> label -> column_holds label' values' df ->
  column_holds label' values' (setitem label values df).
Proof.
  intros Hne [Hhas Hall]. split.
  - unfold has_column in *. apply bool_decide_eq_true.
    apply bool_decide_eq_true in Hhas. apply labels_setitem_elem. by left.
  - unfold setitem, has_column. cbn [columns]. case_bool_decide.
    + intros col [[k x] [-> Hin]]%list_elem_of_fmap. cbn [fst].
      destruct (decide (k = label)) as [->|]; cbn [fst snd]; [done|].
      by apply (Hall (k, x)).
    + intros col [Hin| ->%list_elem_of_singleton]%elem_of_app; [|done].
      by apply Hall.
Qed.

Lemma setitem_id (label : str) (values : list pyval) (df : dataframe) :
  column_holds label values df -> setitem label values df = df.
Proof.
  intros [Hhas Hall]. unfold setitem. rewrite Hhas.
  destruct df as [n cols]. cbn [nrows columns] in *. f_equal.
  rewrite <- (list_fmap_id cols) at 2. apply list_fmap_ext.
  intros i [k x] Hi. cbn [fst id].
  destruct (decide (k = label)) as [->|]; [|done].
  f_equal. symmetry. apply (Hall (label, x)); [|done].
  by apply list_elem_of_lookup_2 in Hi.
Qed.

Lemma add_result_columns_again (results : list result) (df : dataframe) :
  add_result_columns results (add_result_columns results df)
  = add_result_columns results df.
Proof.
  set (t := add_result_columns results df).
  assert (H1 : column_holds (py "google_verdict")
                 (PyStr ∘ verdict <$> results) t).
  { unfold t, add_result_columns.
    repeat (apply setitem_keeps; [discriminate|]). apply setitem_holds. }
  assert (H2 : column_holds (py "publisher")
                 (cell ∘ publisher <$> results) t).
  { unfold t, add_result_columns.
    repeat (apply setitem_keeps; [discriminate|]). apply setitem_holds. }
  assert (H3 : column_holds (py "google_rating")
                 (cell ∘ rating <$> results) t).
  { unfold t, add_result_columns.
    repeat (apply setitem_keeps; [discriminate|]). apply setitem_holds. }
  assert (H4 : column_holds (py "fact_url") (cell ∘ url <$> results) t).
  { unfold t, add_result_columns. apply setitem_holds. }
  unfold add_result_columns at 1.
  by rewrite (setitem_id _ _ _ H1), (setitem_id _ _ _ H2),
    (setitem_id _ _ _ H3), (setitem_id _ _ _ H4).
Qed.

(** Verifying a table again right after changes nothing: the same
    reference comes back, and the store, the cache and the world stay
    as the first run left them. *)
Theorem verify_all_again (df : loc) (h h1 : heap) (s s1 : cache * net) :
  verify_all df h s = Some (Returned df, h1, s1) ->
  verify_all df h1 s1 = Some (Returned df, h1, s1).
Proof.
  unfold verify_all.
  destruct (h !! df) as [table|] eqn:Hh; [|done].
  destruct (row_statements table) as [statements|e] eqn:Hrows; [|done].
  destruct (verify_rows statements s) as [results s'] eqn:Hv.
  intros [= <- <-]. unfold heap, loc in *. rewrite lookup_insert_eq.
  assert (Hrows' : row_statements (add_result_columns results table)
                   = Returned statements).
  { unfold row_statements in *. cbn [add_result_columns setitem nrows].
    destruct (nrows table); [done|].
    rewrite add_result_columns_other; [done|].
    unfold RESULT_COLUMNS. rewrite !not_elem_of_cons.
    repeat split; try discriminate. apply not_elem_of_nil. }
  rewrite Hrows'.
  pose proof (verify_rows_again statements s) as Hagain.
  rewrite Hv in Hagain. cbn [fst snd] in Hagain. rewrite Hagain.
  by rewrite add_result_columns_again, insert_insert_eq.
Qed.

End DriverMore.

Lemma verify_rows_same_statement_witness :
  (@verify_rows (constant_service (Some (py "key")) (HTTPError (py "503")))
     [PyStr (py "a claim"); PyStr (py "another"); PyStr (py "a claim")]
     ([], tt)).1 !! 0
  = (@verify_rows (constant_service (Some (py "key")) (HTTPError (py "503")))
       [PyStr (py "a claim"); PyStr (py "another"); PyStr (py "a claim")]
       ([], tt)).1 !! 2.
Proof.
  apply (@verify_rows_same_statement
           (constant_service (Some (py "key")) (HTTPError (py "503")))
           _ _ 0 2 (PyStr (py "a claim"))); reflexivity.
Defined.

Lemma verify_all_no_rows_witness :
  @verify_all (constant_service (Some (py "key")) (HTTPError (py "503"))) 0
    {[ 0 := {| nrows := 0; columns := [] |} ]} ([], tt)
  = Some (Returned 0,
          <[0 := add_result_columns [] {| nrows := 0; columns := [] |}]>
            {[ 0 := {| nrows := 0; columns := [] |} ]},
          ([], tt)).
Proof.
  apply (@verify_all_no_rows
           (constant_service (Some (py "key")) (HTTPError (py "503")))).
  - reflexivity.
  - reflexivity.
Defined.

Lemma verify_all_no_statement_witness :
  @verify_all (constant_service (Some (py "key")) (HTTPError (py "503"))) 0
    {[ 0 := {| nrows := 1;
               columns := [(py "publisher", [PyStr (py "Snopes")])] |} ]}
    ([], tt)
  = Some (Raised AttributeError,
          {[ 0 := {| nrows := 1;
                     columns := [(py "publisher", [PyStr (py "Snopes")])] |} ]},
          ([], tt)).
Proof.
  apply (@verify_all_no_statement
           (constant_service (Some (py "key")) (HTTPError (py "503")))
           0 _ _ {| nrows := 1;
                    columns := [(py "publisher", [PyStr (py "Snopes")])] |}).
  - reflexivity.
  - discriminate.
  - reflexivity.
Defined.

(** ** Listing scraper *)

Section CollectorMore.

Context {E : collector_env}.
Variables start_date end_date : Z.

Lemma card_body_row_valid (c : card) (r : row) :
  card_body start_date end_date c = Continue (Some r) ->
  row_valid start_date end_date r.
Proof.
  intros Hc. split; [by apply (card_body_row _ _ c)|].
  unfold card_body in Hc.
  destruct (desc_text c) as [text|]; [|done].
  destruct (search_stated_on text) as [g|]; [|done].
  destruct (to_datetime g) as [d|]; [|done].
  destruct (d <? start_date)%Z; [done|].
  destruct (negb _); [done|].
  destruct (footer_author (footer_text c)); [|done].
  destruct (quote_text c) as [[|ch q]|]; [done| |done].
  cbn [truthy] in Hc. by injection Hc as <-.
Qed.

Lemma for_cards_rows (cs : list card) (s : scraper) :
  exists new : list row,
    buffer (for_cards start_date end_date cs s).2 = buffer s ++ new
    /\ Forall (row_valid start_date end_date) new.
Proof.
  revert s. induction cs as [|c rest IH]; intros s; cbn [for_cards].
  { exists []. by rewrite app_nil_r. }
  destruct (card_body start_date end_date c) as [[r|]| |e] eqn:Hc.
  - destruct (IH {| next_page := next_page s; page_count := page_count s;
                    buffer := buffer s ++ [r]; requests := requests s |})
      as (new & Hb & Hnew).
    cbn [buffer] in Hb. exists (r :: new). split.
    + by rewrite Hb, <- app_assoc.
    + constructor; [|done]. by apply (card_body_row_valid c).
  - apply IH.
  - exists []. by rewrite app_nil_r.
  - exists []. by rewrite app_nil_r.
Qed.

(** The loop only ever appends rows, valid ones. *)
Lemma while_pages_rows (fuel : nat) (s s' : scraper) (e : option exn) :
  while_pages start_date end_date fuel s = Some (s', e) ->
  exists new : list row,
    buffer s' = buffer s ++ new
    /\ Forall (row_valid start_date end_date) new.
Proof.
  revert s. induction fuel as [|fuel IH]; intros s Hw.
  - cbn [while_pages] in Hw. destruct (running s); [done|].
    injection Hw as <- _. exists []. by rewrite app_nil_r.
  - destruct (running s) eqn:Hr.
    2:{ rewrite while_pages_stop in Hw by done. injection Hw as <- _.
        exists []. by rewrite app_nil_r. }
    rewrite while_pages_step in Hw by done.
    destruct (session_get _ _) as [|soup].
    { injection Hw as <- _. exists []. by rewrite app_nil_r. }
    destruct (for_cards_rows (cards soup) (begin_page s)) as (new & Hb & Hnew).
    destruct (for_cards _ _ _ _) as [ex s2]. cbn [snd begin_page buffer] in Hb.
    assert (Hnext : match follow_next soup s2 with
                    | Raised e0 => Some (s2, Some e0)
                    | Returned s3 => while_pages start_date end_date fuel s3
                    end = Some (s', e) ->
                    exists new' : list row,
                      buffer s' = buffer s ++ new'
                      /\ Forall (row_valid start_date end_date) new').
    { destruct (follow_next soup s2) as [s3|e0] eqn:Hf.
      - intros Hw'. destruct (IH s3 Hw') as (more & Hb' & Hmore).
        destruct (follow_next_frame _ _ _ Hf) as (_ & Hbuf & _).
        exists (new ++ more). split.
        + by rewrite Hb', Hbuf, Hb, app_assoc.
        + by apply Forall_app.
      - intros [= <- _]. by exists new. }
    destruct ex; [by apply Hnext | by apply Hnext |].
    injection Hw as <- _. by exists new.
Qed.

(** Every row of the table that is returned has its date in the range
    and a statement that is not empty. *)
Theorem scrape_politifact_rows_valid (s : scraper) (df : list row) :
  scrape_politifact start_date end_date = Some (s, Returned df) ->
  Forall (row_valid start_date end_date) df.
Proof.
  unfold scrape_politifact, scrape_politifact_run.
  destruct (while_pages start_date end_date PAGE_CAP initial)
    as [[s' e]|] eqn:Hw; [|done].
  destruct (while_pages_rows _ _ _ _ Hw) as (new & Hb & Hnew).
  cbn [initial buffer app] in Hb.
  destruct e as [e|]; intros [= <- <-]. rewrite Hb.
  unfold read_csv_dropna. apply Forall_fmap.
  rewrite Forall_forall in Hnew |- *.
  intros r [_ Hr]%list_elem_of_filter. exact (Hnew r Hr).
Qed.

(** The cards that follow an item older than the range play no part. *)
Theorem for_cards_after_old_item (pre rest : list card) (c : card)
  (s : scraper) :
  card_body start_date end_date c = Break ->
  for_cards start_date end_date (pre ++ c :: rest) s
  = for_cards start_date end_date (pre ++ [c]) s.
Proof.
  intros Hc. revert s. induction pre as [|p pre IH]; intros s.
  { cbn [app for_cards]. by rewrite Hc. }
  cbn [app for_cards].
  destruct (card_body start_date end_date p) as [[r|]| |e]; [apply IH..|done|done].
Qed.

Lemma while_pages_endless (fuel : nat) (s : scraper) :
  endless_site ->
  truthy (next_page s) = true ->
  page_count s + fuel = PAGE_CAP ->
  exists s' : scraper,
    while_pages start_date end_date fuel s = Some (s', None)
    /\ page_count s' = PAGE_CAP
    /\ length (requests s') = length (requests s) + fuel.
Proof.
  intros Hsite. revert s. induction fuel as [|fuel IH]; intros s Ht Hp.
  - exists s. split; [|split; [lia|lia]].
    apply while_pages_stop. unfold running.
    apply andb_false_iff. right. apply Nat.ltb_ge. lia.
  - assert (Hr : running s = true).
    { unfold running. rewrite Ht. apply Nat.ltb_lt. lia. }
    destruct (Hsite (length (requests s)) (default [] (next_page s)))
      as (p & href & Hget & Hm & Hbtn & Hurl).
    destruct (while_pages_next_page start_date end_date fuel s p href
                Hr Hget Hm Hbtn) as [rows ->].
    destruct (IH {| next_page := Some (urljoin base_url href);
                    page_count := page_count s + 1; buffer := rows;
                    requests := requests s ++ [default [] (next_page s)] |})
      as (s' & Hw & Hc & Hl).
    + cbn [next_page]. by destruct (urljoin base_url href).
    + cbn [page_count]. lia.
    + exists s'. split; [done|]. split; [done|].
      rewrite Hl. cbn [requests]. rewrite length_app. cbn [length]. lia.
Qed.

(** Dates do not end the pagination: on a site where every page has a
    Next link, all 40 pages are fetched, whatever the range and
    whatever the items. *)
Theorem scrape_politifact_reaches_cap :
  endless_site ->
  exists (s : scraper) (df : list row),
    scrape_politifact start_date end_date = Some (s, Returned df)
    /\ page_count s = 40
    /\ length (requests s) = 40.
Proof.
  intros Hsite. unfold scrape_politifact, scrape_politifact_run.
  destruct (while_pages_endless PAGE_CAP initial Hsite) as (s' & -> & Hc & Hl);
    [done|done|].
  by eexists _, _.
Qed.

End CollectorMore.

Lemma scrape_politifact_rows_valid_witness :
  Forall (row_valid JAN_1_2024 JAN_31_2024)
    [ {| author := Some (py "Bob Writer");
         statement := py "A recent claim";
         source := None;
         date := 19732;
         label := Some (py "false") |} ].
Proof.
  apply (@scrape_politifact_rows_valid
           (listing [single_page card_without_source])
           JAN_1_2024 JAN_31_2024
           {| next_page := None; page_count := 1;
              buffer := [ {| author := Some (py "Bob Writer");
                             statement := py "A recent claim";
                             source := None;
                             date := 19732;
                             label := Some (py "false") |} ];
              requests := [base_url] |}).
  vm_compute. reflexivity.
Defined.

Lemma for_cards_after_old_item_witness :
  @for_cards (listing []) JAN_1_2024 JAN_31_2024
    ([] ++ card_of (py "December 20, 2023") (Some (py "An old claim"))
                   None None
        :: [card_without_source]) initial
  = @for_cards (listing []) JAN_1_2024 JAN_31_2024
      ([] ++ [card_of (py "December 20, 2023") (Some (py "An old claim"))
                      None None]) initial.
Proof.
  apply (@for_cards_after_old_item (listing []) JAN_1_2024 JAN_31_2024).
  reflexivity.
Defined.

Lemma scrape_politifact_reaches_cap_witness :
  exists (s : scraper) (df : list row),
    @scrape_politifact endless_listing JAN_1_2024 JAN_31_2024
    = Some (s, Returned df)
    /\ page_count s = 40
    /\ length (requests s) = 40.
Proof.
  apply (@scrape_politifact_reaches_cap endless_listing).
  intros n u. exists first_of_two, (py "?page=2").
  split; [reflexivity|]. split; [|split; [reflexivity|discriminate]].
  repeat constructor. intros text [= <-]. by eexists.
Defined.

(** ** Verdict summary *)

Section ValueCountsMore.

Context {A : Type} `{EqDecision A}.

Lemma insert_desc_sorted (x : A * nat) (l : list (A * nat)) :
  StronglySorted (fun a b => b.2 <= a.2) l ->
  StronglySorted (fun a b => b.2 <= a.2) (insert_desc x l).
Proof.
  induction 1 as [|y rest Hrest IH Hy]; cbn [insert_desc].
  { repeat constructor. }
  destruct (Nat.leb_spec y.2 x.2) as [Hle|Hlt].
  - constructor; [by constructor|].
    constructor; [done|]. apply (Forall_impl _ _ _ Hy). intros z Hz. lia.
  - constructor; [done|].
    rewrite (insert_desc_perm x rest). constructor; [lia|done].
Qed.

(** The counts come in decreasing order, each label with the number of
    its occurrences, which is never zero, and they add up to the number
    of rows. *)
Theorem value_counts_sorted (col : list A) :
  StronglySorted (fun a b => b.2 <= a.2) (value_counts col)
  /\ Forall (fun kn => kn.2 = occurrences kn.1 col /\ 0 < kn.2)
            (value_counts col)
  /\ sum_list (value_counts col).*2 = length col.
Proof.
  split; [|split].
  - unfold value_counts, sort_desc.
    induction (tally col []) as [|x l IH]; cbn [foldr]; [constructor|].
    by apply insert_desc_sorted.
  - destruct (value_counts_spec col) as (Hnd & Hin & Hget & _).
    apply Forall_forall. intros [k n] Hkn. cbn [fst snd].
    assert (Hk : k ∈ col).
    { apply Hin. apply list_elem_of_fmap. by exists (k, n). }
    apply (series_get_Some k n _ Hnd) in Hkn.
    rewrite (Hget k Hk) in Hkn. injection Hkn as <-. split; [done|].
    unfold occurrences.
    destruct (filter (fun x => x = k) col) as [|y l] eqn:Hf; [|cbn; lia].
    assert (Hkf : k ∈ filter (fun x => x = k) col)
      by by apply list_elem_of_filter.
    rewrite Hf in Hkf. by apply elem_of_nil in Hkf.
  - apply value_counts_spec.
Qed.

End ValueCountsMore.

Lemma verify_all_again_witness :
  @verify_all (constant_service None (HTTPError (py "503"))) 0
    (<[0 := add_result_columns [key_missing] verified_before]>
       {[ 0 := verified_before ]})
    ([(PyStr (py "The moon is made of cheese"), key_missing)], tt)
  = Some (Returned 0,
          <[0 := add_result_columns [key_missing] verified_before]>
            {[ 0 := verified_before ]},
          ([(PyStr (py "The moon is made of cheese"), key_missing)], tt)).
Proof.
  apply (@verify_all_again (constant_service None (HTTPError (py "503"))) 0
           {[ 0 := verified_before ]} _ ([], tt)).
  reflexivity.
Defined.
